(** * ShopBot backend: task resolution workflow and candidate generation

    A shallow embedding of [main.py] (the [/api/search], [/api/tasks] and
    [/api/tasks/approve] handlers) and of the [Task] and [Bot] schemas of
    [schemas.py].  Handlers are functions from a store and a request
    payload to a response and a store; [HTTPException] is a constructor
    of the response type. *)

From Stdlib Require Import ZArith Ascii String DecimalString DecimalNat.
From stdpp Require Import gmap strings list fin_maps.

Local Open Scope Z_scope.

(** ** Python strings *)

Module Py.

(** [str.lower()] on one character.  Strings are byte strings here;
    only the ASCII capitals change.  Python lowers non-ASCII code
    points as well, but none of them becomes a letter occurring in a
    supported retailer name, so the membership test of
    [search_products] is decided by the ASCII part. *)
Definition lower_ascii (c : ascii) : ascii :=
  let n := nat_of_ascii c in
  if ((65 <=? n)%nat && (n <=? 90)%nat)%bool then ascii_of_nat (n + 32) else c.

Fixpoint lower (s : string) : string :=
  match s with
  | EmptyString => EmptyString
  | String c r => String (lower_ascii c) (lower r)
  end.

(** [str(n)] for a non-negative integer. *)
Definition str_of_nat (n : nat) : string :=
  NilEmpty.string_of_uint (Nat.to_uint n).

(** [x or d] for an optional string: [None] and the empty string are falsy. *)
Definition or_str (x : option string) (d : string) : string :=
  match x with
  | None => d
  | Some EmptyString => d
  | Some s => s
  end.

(** [l or d] for a list: the empty list is falsy. *)
Definition or_list {A} (l d : list A) : list A :=
  match l with
  | [] => d
  | _ => l
  end.

(** [range(n)]: empty when [n <= 0]. *)
Definition range (n : Z) : list nat := seq 0 (Z.to_nat n).

End Py.

(** ** bson.ObjectId

    An [ObjectId] wraps the bytes that [bytes.fromhex] reads from its
    text; it is kept as the lower-case hexadecimal text of those bytes,
    which is what [str(oid)] returns.  [ObjectId(s)] accepts either
    letter case, and whatever [bytes.fromhex] accepts in a string of 24
    characters. *)

Record ObjectId := Oid { oid_str : string }.

Global Instance ObjectId_eq_dec : EqDecision ObjectId.
Proof. solve_decision. Defined.

Global Instance ObjectId_countable : Countable ObjectId.
Proof. apply (inj_countable' oid_str Oid). by intros []. Defined.

Definition is_hex_digit (c : ascii) : bool :=
  let n := nat_of_ascii c in
  (((48 <=? n)%nat && (n <=? 57)%nat)
   || ((97 <=? n)%nat && (n <=? 102)%nat)
   || ((65 <=? n)%nat && (n <=? 70)%nat))%bool.

Fixpoint all_hex (s : string) : bool :=
  match s with
  | EmptyString => true
  | String c r => (is_hex_digit c && all_hex r)%bool
  end.

(** ASCII whitespace: space, tab, line feed, vertical tab, form feed,
    carriage return. *)
Definition is_space (c : ascii) : bool :=
  let n := nat_of_ascii c in
  ((n =? 32)%nat || ((9 <=? n)%nat && (n <=? 13)%nat))%bool.

(** [bytes.fromhex(s).hex()]: the bytes are written as pairs of
    hexadecimal digits; whitespace is skipped before a pair, not inside
    one; any other character, or a digit left alone at the end, is an
    error.  [top] is the first digit of a pair that has been read. *)
Fixpoint fromhex_go (top : option ascii) (s : string) : option string :=
  match s with
  | EmptyString =>
      match top with
      | None => Some EmptyString
      | Some _ => None
      end
  | String c r =>
      match top with
      | None =>
          if is_space c then fromhex_go None r
          else if is_hex_digit c then fromhex_go (Some c) r
          else None
      | Some t =>
          if is_hex_digit c then
            match fromhex_go None r with
            | Some h => Some (String (Py.lower_ascii t) (String (Py.lower_ascii c) h))
            | None => None
            end
          else None
      end
  end.

Definition fromhex (s : string) : option string := fromhex_go None s.

(** [ObjectId.is_valid(s)] on a [str]: 24 characters that
    [bytes.fromhex] reads. *)
Definition ObjectId_is_valid (s : string) : bool :=
  ((String.length s =? 24)%nat
   && match fromhex s with Some _ => true | None => false end)%bool.

(** [ObjectId(s)], meaningful when [ObjectId_is_valid s]. *)
Definition ObjectId_of (s : string) : ObjectId :=
  Oid (default (Py.lower s) (fromhex s)).

(** ** Responses *)

Inductive response (A : Type) : Type :=
| Ok (a : A)
| HTTPException (status_code : Z) (detail : string).
Arguments Ok {A} a.
Arguments HTTPException {A} status_code detail.

(** ** Candidate generation ([/api/search]) *)

Definition SUPPORTED_RETAILERS : list string :=
  ["amazon"; "walmart"; "bestbuy"; "target"; "shopify"].

Record SearchQuery := {
  query : string;
  retailer : option string;
  limit : Z
}.

(** One entry of the result list.  [price] and [rating] are decimals
    with two fractional digits (the source rounds to two places) and are
    kept in hundredths: 19.99 is [1999]. *)
Record Candidate := {
  c_retailer : string;
  c_title : string;
  c_price : Z;
  c_rating : Z;
  c_url : string;
  c_image : string
}.

Global Instance Candidate_eq_dec : EqDecision Candidate.
Proof. solve_decision. Defined.

Record SearchResponse := { results : list Candidate }.

Definition make_item (q r : string) (i : nat) : Candidate :=
  {| c_retailer := r;
     c_title := q +:+ " - Option " +:+ Py.str_of_nat (i + 1);
     c_price := 1999 + Z.of_nat i * 525;
     c_rating := 420 - Z.of_nat i * 10;
     c_url := "https://" +:+ r +:+ ".example.com/product/" +:+ Py.str_of_nat (i + 1);
     c_image := "https://via.placeholder.com/300x200.png?text=Product" |}.

Definition search_products (payload : SearchQuery) : response SearchResponse :=
  let r := Py.lower (Py.or_str (retailer payload) "amazon") in
  if bool_decide (r ∉ SUPPORTED_RETAILERS) then
    HTTPException 400 "Unsupported retailer"
  else
    let items := map (make_item (query payload) r)
                     (Py.range (Z.min (limit payload) 8)) in
    Ok {| results := items |}.

(** The retailer as [search_products] sees it after normalisation. *)
Definition normalized (r : option string) : string :=
  Py.lower (Py.or_str r "amazon").

(** ** Schemas ([schemas.py]) *)

Inductive Status : Type :=
| queued | running | succeeded | failed | awaiting_approval.

Global Instance Status_eq_dec : EqDecision Status.
Proof. solve_decision. Defined.

Definition status_name (s : Status) : string :=
  match s with
  | queued => "queued"
  | running => "running"
  | succeeded => "succeeded"
  | failed => "failed"
  | awaiting_approval => "awaiting_approval"
  end.

(** [Bot]; the two untyped dictionaries ([constraints], [acp_config]) are
    never read by the workflow and are left out. *)
Record Bot := {
  b_user_id : string;
  b_name : string;
  b_goals : option string;
  retailers : list string;
  b_model : option string
}.

Record Task := {
  user_id : string;
  bot_id : string;
  prompt : string;
  status : Status;
  candidates : list Candidate;
  selection : option Candidate;
  logs : list string
}.

Global Instance Task_eq_dec : EqDecision Task.
Proof. solve_decision. Defined.

(** ** The document store

    Two collections of the database handle [db], keyed by [_id].  A
    stored document is the pair of its [_id] and its fields. *)

Record Store := {
  db_bot : gmap ObjectId Bot;
  db_task : gmap ObjectId Task
}.

Definition empty_store : Store := {| db_bot := ∅; db_task := ∅ |}.

(** [collection.find_one({"_id": k})] *)
Definition find_one {A} (coll : gmap ObjectId A) (k : ObjectId) : option (ObjectId * A) :=
  pair k <$> coll !! k.

(** The [$set] of [approve_selection]: two fields, the rest kept. *)
Definition set_selection (sel : Candidate) (t : Task) : Task :=
  {| user_id := user_id t;
     bot_id := bot_id t;
     prompt := prompt t;
     status := succeeded;
     candidates := candidates t;
     selection := Some sel;
     logs := logs t |}.

(** [db["task"].find_one_and_update({"_id": k}, {"$set": ...},
    return_document=True)]: the document after the update, or [None]
    and no write when [k] is absent. *)
Definition find_one_and_update (k : ObjectId) (upd : Task → Task) (db : Store)
  : option (ObjectId * Task) * Store :=
  match db_task db !! k with
  | None => (None, db)
  | Some t =>
      (Some (k, upd t),
       {| db_bot := db_bot db; db_task := <[k := upd t]> (db_task db) |})
  end.

(** Modelled from the spec: [create_document] of [database.py], which is
    not part of the sources at hand.  The spec gives the store contract
    [create(collection, record) → id]: the record is written under a
    newly assigned identifier, which is returned as text.  The
    identifier the database assigns is the argument [new_id]. *)
Definition create_document (new_id : ObjectId) (t : Task) (db : Store) : string * Store :=
  (oid_str new_id,
   {| db_bot := db_bot db; db_task := <[new_id := t]> (db_task db) |}).

(** A document as the API returns it: [_id] replaced by its text [id]. *)
Record TaskDoc := { id : string; fields : Task }.

Definition serialize_doc (doc : option (ObjectId * Task)) : option TaskDoc :=
  match doc with
  | None => None
  | Some (k, t) => Some {| id := oid_str k; fields := t |}
  end.

(** ** Task workflow ([/api/tasks], [/api/tasks/approve]) *)

Record CreateTask := {
  ct_user_id : string;
  ct_bot_id : string;
  ct_prompt : string
}.

Record ApproveSelection := {
  task_id : string;
  index : Z
}.

(** An exception that no handler catches reaches the client as a 500. *)
Definition uncaught {A} : response A := HTTPException 500 "Internal Server Error".

Definition create_task (new_id : ObjectId) (payload : CreateTask) (db : Store)
  : response (option TaskDoc) * Store :=
  let bot :=
    if ObjectId_is_valid (ct_bot_id payload)
    then find_one (db_bot db) (ObjectId_of (ct_bot_id payload))
    else None in
  match bot with
  | None => (HTTPException 404 "Bot not found", db)
  | Some (_, b) =>
      match Py.or_list (retailers b) ["amazon"] with
      | [] => (uncaught, db)
      | r0 :: _ =>
          match search_products
                  {| query := ct_prompt payload; retailer := Some r0; limit := 5 |} with
          | HTTPException code detail => (HTTPException code detail, db)
          | Ok found =>
              let cands := results found in
              let t :=
                {| user_id := ct_user_id payload;
                   bot_id := ct_bot_id payload;
                   prompt := ct_prompt payload;
                   status := awaiting_approval;
                   candidates := cands;
                   selection := None;
                   logs := ["Task created";
                            "Searched " +:+ Py.str_of_nat (length cands) +:+ " candidates"] |} in
              let '(tid, db') := create_document new_id t db in
              let created := find_one (db_task db') (ObjectId_of tid) in
              (Ok (serialize_doc created), db')
          end
      end
  end.

Definition approve_selection (payload : ApproveSelection) (db : Store)
  : response (option TaskDoc) * Store :=
  if negb (ObjectId_is_valid (task_id payload)) then
    (HTTPException 400 "Invalid task id", db)
  else
    match find_one (db_task db) (ObjectId_of (task_id payload)) with
    | None => (HTTPException 404 "Task not found", db)
    | Some (_, t) =>
        let cands := candidates t in
        if ((index payload <? 0) || (index payload >=? Z.of_nat (length cands)))%bool then
          (HTTPException 400 "Invalid candidate index", db)
        else
          match cands !! Z.to_nat (index payload) with
          | None => (uncaught, db)
          | Some sel =>
              let '(updated, db') :=
                find_one_and_update (ObjectId_of (task_id payload)) (set_selection sel) db in
              (Ok (serialize_doc updated), db')
          end
    end.

(** ** A running example *)

Definition bot1_id : string := "64b7f0a1c2d3e4f5a6b7c8d9".
Definition task1_id : string := "64b7f0a1c2d3e4f5a6b7c8da".

Definition bot1 : Bot :=
  {| b_user_id := "u1"; b_name := "b1"; b_goals := None;
     retailers := ["amazon"]; b_model := None |}.

Definition store1 : Store :=
  {| db_bot := {[ ObjectId_of bot1_id := bot1 ]}; db_task := ∅ |}.

Definition mouse_request : CreateTask :=
  {| ct_user_id := "u1"; ct_bot_id := bot1_id; ct_prompt := "wireless mouse" |}.

Definition store2 : Store := snd (create_task (ObjectId_of task1_id) mouse_request store1).

Definition store3 : Store :=
  snd (approve_selection {| task_id := task1_id; index := 2 |} store2).

(** The task of [store2], and the task of [store3]. *)
Definition task1 : Task :=
  {| user_id := "u1";
     bot_id := bot1_id;
     prompt := "wireless mouse";
     status := awaiting_approval;
     candidates := map (make_item "wireless mouse" "amazon") [0; 1; 2; 3; 4]%nat;
     selection := None;
     logs := ["Task created"; "Searched 5 candidates"] |}.

Definition task1_approved : Task :=
  set_selection (make_item "wireless mouse" "amazon" 2) task1.

(** ** Vocabulary of the statements *)

(** [tid] is the id of a stored task with fields [t]. *)
Definition persisted (db : Store) (tid : string) (t : Task) : Prop :=
  ObjectId_is_valid tid = true ∧ db_task db !! ObjectId_of tid = Some t.

(** [bid] is the id of a stored bot [b]. *)
Definition resolves_bot (db : Store) (bid : string) (b : Bot) : Prop :=
  ObjectId_is_valid bid = true ∧ db_bot db !! ObjectId_of bid = Some b.

(** An identifier the database can assign: reading its text back gives
    the identifier (its text is in canonical form). *)
Definition canonical (o : ObjectId) : Prop := ObjectId_of (oid_str o) = o.

(** The retailer [create_task] ends up searching for a bot. *)
Definition preferred_retailer (b : Bot) : string :=
  normalized (head (Py.or_list (retailers b) ["amazon"])).

(** The store after the write of [approve_selection]. *)
Definition approved (db : Store) (tid : string) (t' : Task) : Store :=
  {| db_bot := db_bot db; db_task := <[ObjectId_of tid := t']> (db_task db) |}.

Definition bot_ebay : Bot :=
  {| b_user_id := "u1"; b_name := "b2"; b_goals := None;
     retailers := ["ebay"; "amazon"]; b_model := None |}.

Definition store_ebay : Store :=
  {| db_bot := {[ ObjectId_of bot1_id := bot_ebay ]}; db_task := ∅ |}.

(** ** The other handlers of [main.py] *)

(** [PyObjectId.validate(v)]: [v] is an [ObjectId] already, or a string
    to be read as one; a string that is not valid raises [ValueError]. *)
Inductive validated : Type :=
| Validated (o : ObjectId)
| ValueError (msg : string).

Definition PyObjectId_validate (v : ObjectId + string) : validated :=
  match v with
  | inl o => Validated o
  | inr s =>
      if negb (ObjectId_is_valid s) then ValueError "Invalid ObjectId"
      else Validated (ObjectId_of s)
  end.

(** A bot document as the API returns it. *)
Record BotDoc := { bot_doc_id : string; bot_fields : Bot }.

(** [serialize_doc] on a document of the bot collection. *)
Definition serialize_bot_doc (doc : option (ObjectId * Bot)) : option BotDoc :=
  match doc with
  | None => None
  | Some (k, b) => Some {| bot_doc_id := oid_str k; bot_fields := b |}
  end.

(** Modelled from the spec: [create_document] of [database.py] on the bot
    collection, with the same contract [create(collection, record) → id]
    as for tasks; [new_id] is the identifier the database assigns. *)
Definition create_bot_document (new_id : ObjectId) (b : Bot) (db : Store) : string * Store :=
  (oid_str new_id,
   {| db_bot := <[new_id := b]> (db_bot db); db_task := db_task db |}).

(** [POST /api/bots] *)
Definition create_bot (new_id : ObjectId) (bot : Bot) (db : Store)
  : response (option BotDoc) * Store :=
  let '(bid, db') := create_bot_document new_id bot db in
  let created := find_one (db_bot db') (ObjectId_of bid) in
  (Ok (serialize_bot_doc created), db').

Record OkResponse := { ok : bool }.

(** [DELETE /api/bots/{bot_id}] *)
Definition delete_bot (bid : string) (db : Store) : response OkResponse * Store :=
  if negb (ObjectId_is_valid bid) then
    (HTTPException 400 "Invalid bot id", db)
  else
    (Ok {| ok := true |},
     {| db_bot := delete (ObjectId_of bid) (db_bot db); db_task := db_task db |}).

(** The filter dictionary of [list_tasks]: [user_id] always, [bot_id]
    when the key was set. *)
Record TaskFilter := { f_user_id : string; f_bot_id : option string }.

Definition matches (f : TaskFilter) (t : Task) : bool :=
  (bool_decide (user_id t = f_user_id f)
   && match f_bot_id f with
      | None => true
      | Some b => bool_decide (bot_id t = b)
      end)%bool.

(** Modelled from the spec: [get_documents] of [database.py], which is
    not part of the sources at hand.  The spec gives the store contract
    [find_many(collection, filter, limit) → sequence of record]: the
    documents matching the filter, in the store's order, at most [limit]
    of them.  The store's order is the order of [map_to_list]. *)
Definition get_documents (f : TaskFilter) (lim : nat) (db : Store) : list (ObjectId * Task) :=
  take lim (filter (λ d, matches f d.2 = true) (map_to_list (db_task db))).

(** [if bot_id:] on an optional string, as a filter entry. *)
Definition truthy_str (x : option string) : option string :=
  match x with
  | None => None
  | Some EmptyString => None
  | Some s => Some s
  end.

(** [GET /api/tasks] *)
Definition list_tasks (uid : string) (bid : option string) (db : Store)
  : list (option TaskDoc) :=
  let filter_q := {| f_user_id := uid; f_bot_id := truthy_str bid |} in
  let docs := get_documents filter_q 50 db in
  map (λ d, serialize_doc (Some d)) docs.

(** ** ACP stubs *)

Record AcpAction := {
  action_name : string;
  action_description : string;
  action_properties : list (string * string)
}.

Definition acp_actions : list AcpAction :=
  [ {| action_name := "search_products";
       action_description := "Search for products by query across supported retailers";
       action_properties := [("query", "string"); ("retailer", "string")] |};
    {| action_name := "get_product";
       action_description := "Get product details by URL or ID";
       action_properties := [("url", "string")] |};
    {| action_name := "add_to_cart";
       action_description := "Add a product to cart for a specific retailer";
       action_properties := [("url", "string"); ("quantity", "integer")] |};
    {| action_name := "start_checkout";
       action_description := "Begin checkout flow (human approval in MVP)";
       action_properties := [("cart_id", "string")] |} ].

(** The request of [/api/acp/invoke].  Argument values are strings here:
    the handler reads [query], [retailer] and [url], which are strings
    in a well-formed request. *)
Record AcpInvoke := {
  action : string;
  arguments : gmap string string
}.

(** The stub product detail; the price 29.99 is kept in hundredths. *)
Record Product := {
  p_title : string;
  p_price : Z;
  p_url : string;
  p_images : list string;
  p_specs : list (string * string)
}.

Inductive AcpResult : Type :=
| AcpSearch (found : SearchResponse)
| AcpProduct (product : Product)
| AcpCart (cart_id status : string)
| AcpCheckout (checkout status : string).

Definition acp_invoke (payload : AcpInvoke) : response AcpResult :=
  if String.eqb (action payload) "search_products" then
    let q := default EmptyString (arguments payload !! "query") in
    let r := arguments payload !! "retailer" in
    match search_products {| query := q; retailer := r; limit := 5 |} with
    | Ok found => Ok (AcpSearch found)
    | HTTPException code detail => HTTPException code detail
    end
  else if String.eqb (action payload) "get_product" then
    match truthy_str (arguments payload !! "url") with
    | None => HTTPException 400 "url required"
    | Some url =>
        Ok (AcpProduct
              {| p_title := "Sample Product";
                 p_price := 2999;
                 p_url := url;
                 p_images := ["https://via.placeholder.com/640x480.png?text=Product"];
                 p_specs := [("brand", "Demo"); ("warranty", "1y")] |})
    end
  else if String.eqb (action payload) "add_to_cart" then
    Ok (AcpCart "demo-cart-123" "added")
  else if String.eqb (action payload) "start_checkout" then
    Ok (AcpCheckout "manual-approval-required" "pending")
  else
    HTTPException 400 "Unknown action".

(** ** Runs of the API

    A request to one of the handlers that write to the store, and the
    store after a sequence of requests. *)
Inductive Request : Type :=
| ReqCreateBot (new_id : ObjectId) (bot : Bot)
| ReqDeleteBot (bid : string)
| ReqCreateTask (new_id : ObjectId) (payload : CreateTask)
| ReqApprove (payload : ApproveSelection).

Definition step (db : Store) (r : Request) : Store :=
  match r with
  | ReqCreateBot new_id bot => snd (create_bot new_id bot db)
  | ReqDeleteBot bid => snd (delete_bot bid db)
  | ReqCreateTask new_id payload => snd (create_task new_id payload db)
  | ReqApprove payload => snd (approve_selection payload db)
  end.

Definition run (rs : list Request) (db : Store) : Store := foldl step db rs.

(** What holds of every task the workflow can produce. *)
Definition task_inv (t : Task) : Prop :=
  length (candidates t) = 5%nat
  ∧ length (logs t) = 2%nat
  ∧ match selection t with
    | None => status t = awaiting_approval
    | Some c => status t = succeeded ∧ c ∈ candidates t
    end.

Definition store_inv (db : Store) : Prop :=
  ∀ k t, db_task db !! k = Some t → task_inv t.

(** The task [create_task] builds from a request and the retailer the
    search settled on. *)
Definition new_task (p : CreateTask) (r : string) : Task :=
  {| user_id := ct_user_id p;
     bot_id := ct_bot_id p;
     prompt := ct_prompt p;
     status := awaiting_approval;
     candidates := map (make_item (ct_prompt p) r) (seq 0 5);
     selection := None;
     logs := ["Task created"; "Searched 5 candidates"] |}.

(** The store after the write of [create_task]. *)
Definition created (db : Store) (new_id : ObjectId) (t : Task) : Store :=
  {| db_bot := db_bot db; db_task := <[new_id := t]> (db_task db) |}.

(** Strictly increasing, strictly decreasing sequences of integers. *)
Fixpoint increasing (l : list Z) : Prop :=
  match l with
  | x :: (y :: _) as r => x < y ∧ increasing r
  | _ => True
  end.

Fixpoint decreasing (l : list Z) : Prop :=
  match l with
  | x :: (y :: _) as r => y < x ∧ decreasing r
  | _ => True
  end.

(** * Properties *)

(** ** The running example, evaluated *)

Example search_mouse :
  search_products {| query := "mouse"; retailer := Some "Amazon"; limit := 2 |}
  = Ok {| results :=
      [ {| c_retailer := "amazon"; c_title := "mouse - Option 1";
           c_price := 1999; c_rating := 420;
           c_url := "https://amazon.example.com/product/1";
           c_image := "https://via.placeholder.com/300x200.png?text=Product" |};
        {| c_retailer := "amazon"; c_title := "mouse - Option 2";
           c_price := 2524; c_rating := 410;
           c_url := "https://amazon.example.com/product/2";
           c_image := "https://via.placeholder.com/300x200.png?text=Product" |} ] |}.
Proof. reflexivity. Qed.

Example store2_task : db_task store2 !! ObjectId_of task1_id = Some task1.
Proof. vm_compute. reflexivity. Qed.

Example store3_task : db_task store3 !! ObjectId_of task1_id = Some task1_approved.
Proof. vm_compute. reflexivity. Qed.

(** ** Candidate generation *)

Section Search.

Implicit Types (q r : string) (l : Z).

Lemma range_length n : length (Py.range n) = Z.to_nat n.
Proof. unfold Py.range. apply length_seq. Qed.

Lemma supported_cases r :
  r ∈ SUPPORTED_RETAILERS →
  r = "amazon" ∨ r = "walmart" ∨ r = "bestbuy" ∨ r = "target" ∨ r = "shopify".
Proof.
  unfold SUPPORTED_RETAILERS. rewrite !elem_of_cons, elem_of_nil. tauto.
Qed.

Lemma supported_normalized r :
  r ∈ SUPPORTED_RETAILERS → normalized (Some r) = r.
Proof.
  intros H. apply supported_cases in H.
  destruct H as [->|[->|[->|[->| ->]]]]; reflexivity.
Qed.

Lemma lower_nonempty r : Py.lower r ∈ SUPPORTED_RETAILERS → r ≠ EmptyString.
Proof.
  intros H ->. apply supported_cases in H. simpl in H.
  destruct H as [H|[H|[H|[H|H]]]]; discriminate H.
Qed.

Lemma or_str_nonempty r d : r ≠ EmptyString → Py.or_str (Some r) d = r.
Proof. destruct r; [congruence | reflexivity]. Qed.

(** The two outcomes of [search_products], by the membership test. *)
Lemma search_supported q ro l :
  normalized ro ∈ SUPPORTED_RETAILERS →
  search_products {| query := q; retailer := ro; limit := l |}
  = Ok {| results := map (make_item q (normalized ro)) (Py.range (Z.min l 8)) |}.
Proof.
  intros H. unfold search_products; cbn [retailer query limit].
  fold (normalized ro).
  rewrite bool_decide_eq_false_2; [reflexivity | tauto].
Qed.

Lemma search_unsupported q ro l :
  normalized ro ∉ SUPPORTED_RETAILERS →
  search_products {| query := q; retailer := ro; limit := l |}
  = HTTPException 400 "Unsupported retailer".
Proof.
  intros H. unfold search_products; cbn [retailer query limit].
  fold (normalized ro).
  by rewrite bool_decide_eq_true_2.
Qed.

Lemma items_retailer q r (ix : list nat) :
  Forall (λ c, c_retailer c = r) (map (make_item q r) ix).
Proof. induction ix as [|i ix IH]; constructor; [reflexivity | exact IH]. Qed.

Lemma items_length q r l :
  Z.of_nat (length (map (make_item q r) (Py.range (Z.min l 8)))) = Z.max 0 (Z.min l 8).
Proof. rewrite length_map, range_length. lia. Qed.

End Search.

(** C5. For every query, every supported retailer and every integer
    limit, [search_products] succeeds and the number of results is the
    limit clamped into [0, 8]; for a limit already in [0, 8] it is the
    limit itself. *)
Theorem search_length_clamped (q r : string) (l : Z) :
  r ∈ SUPPORTED_RETAILERS →
  ∃ items,
    search_products {| query := q; retailer := Some r; limit := l |}
      = Ok {| results := items |}
    ∧ Z.of_nat (length items) = Z.max 0 (Z.min l 8)
    ∧ 0 ≤ Z.of_nat (length items) ≤ 8
    ∧ (0 ≤ l ≤ 8 → Z.of_nat (length items) = l).
Proof.
  intros Hr. eexists. split.
  - apply search_supported. by rewrite supported_normalized.
  - rewrite items_length. lia.
Qed.

Lemma search_length_clamped_witness :
  ∃ items,
    search_products {| query := "usb hub"; retailer := Some "walmart"; limit := 3 |}
      = Ok {| results := items |}
    ∧ Z.of_nat (length items) = Z.max 0 (Z.min 3 8)
    ∧ 0 ≤ Z.of_nat (length items) ≤ 8
    ∧ (0 ≤ 3 ≤ 8 → Z.of_nat (length items) = 3).
Proof.
  apply (search_length_clamped "usb hub" "walmart" 3).
  apply (bool_decide_unpack _). vm_compute. exact I.
Defined.

Example search_limit_over : ∀ q,
  length <$> (match search_products {| query := q; retailer := Some "target"; limit := 100 |}
              with Ok s => Some (results s) | _ => None end) = Some 8%nat.
Proof. reflexivity. Qed.

Example search_limit_negative : ∀ q,
  search_products {| query := q; retailer := Some "target"; limit := -3 |}
  = Ok {| results := [] |}.
Proof. reflexivity. Qed.

(** C6, counterexample.  ["Amazon"] and the empty string are not members
    of the enumeration, yet the search succeeds on them. *)
Lemma search_nonmember_succeeds :
  ("Amazon" ∉ SUPPORTED_RETAILERS)
  ∧ (EmptyString ∉ SUPPORTED_RETAILERS)
  ∧ search_products {| query := "q"; retailer := Some "Amazon"; limit := 1 |}
    = Ok {| results := [make_item "q" "amazon" 0] |}
  ∧ search_products {| query := "q"; retailer := Some EmptyString; limit := 1 |}
    = Ok {| results := [make_item "q" "amazon" 0] |}.
Proof.
  split; [|split; [|split; reflexivity]];
    intros H; apply supported_cases in H;
    destruct H as [H|[H|[H|[H|H]]]]; discriminate H.
Qed.

(** C6, amended.  For every retailer string whose normalised form (the
    string, or ["amazon"] when it is empty, in lower case) is not in the
    supported set, [search_products] fails with status 400 and detail
    ["Unsupported retailer"]; a failure carries no result list. *)
Theorem search_rejects_unsupported (q r : string) (l : Z) :
  normalized (Some r) ∉ SUPPORTED_RETAILERS →
  search_products {| query := q; retailer := Some r; limit := l |}
  = HTTPException 400 "Unsupported retailer".
Proof. apply search_unsupported. Qed.

Lemma search_rejects_unsupported_witness :
  search_products {| query := "lamp"; retailer := Some "eBay"; limit := 5 |}
  = HTTPException 400 "Unsupported retailer".
Proof.
  apply (search_rejects_unsupported "lamp" "eBay" 5).
  apply (bool_decide_unpack _). vm_compute. exact I.
Defined.

(** C10. An absent or empty retailer is replaced by ["amazon"], and the
    retailer is put in lower case before the membership test: whenever
    the lower-case form of the given retailer is supported the search
    succeeds, it returns what the search on the lower-case name returns,
    the number of candidates is the clamped limit, and every candidate
    carries the lower-case name. *)
Theorem search_normalizes_retailer (q : string) (l : Z) :
  (∀ ro, ro = None ∨ ro = Some EmptyString →
     ∃ items,
       search_products {| query := q; retailer := ro; limit := l |}
         = Ok {| results := items |}
       ∧ search_products {| query := q; retailer := Some "amazon"; limit := l |}
         = Ok {| results := items |}
       ∧ Z.of_nat (length items) = Z.max 0 (Z.min l 8)
       ∧ Forall (λ c, c_retailer c = "amazon") items)
  ∧ ∀ r, Py.lower r ∈ SUPPORTED_RETAILERS →
      ∃ items,
        search_products {| query := q; retailer := Some r; limit := l |}
          = Ok {| results := items |}
        ∧ search_products {| query := q; retailer := Some (Py.lower r); limit := l |}
          = Ok {| results := items |}
        ∧ Z.of_nat (length items) = Z.max 0 (Z.min l 8)
        ∧ Forall (λ c, c_retailer c = Py.lower r) items.
Proof.
  split.
  - intros ro Hro. exists (map (make_item q "amazon") (Py.range (Z.min l 8))).
    split; [|split; [|split]].
    + destruct Hro as [-> | ->]; reflexivity.
    + reflexivity.
    + apply items_length.
    + apply items_retailer.
  - intros r Hr.
    assert (Hn : normalized (Some r) = Py.lower r).
    { unfold normalized. by rewrite or_str_nonempty by by apply lower_nonempty. }
    eexists. split; [|split; [|split]].
    + apply search_supported. by rewrite Hn.
    + rewrite Hn. rewrite search_supported; rewrite supported_normalized; done.
    + rewrite Hn. apply items_length.
    + rewrite Hn. apply items_retailer.
Qed.

Lemma search_normalizes_retailer_witness :
  (∃ items,
     search_products {| query := "desk"; retailer := Some EmptyString; limit := 3 |}
       = Ok {| results := items |}
     ∧ search_products {| query := "desk"; retailer := Some "amazon"; limit := 3 |}
       = Ok {| results := items |}
     ∧ Z.of_nat (length items) = Z.max 0 (Z.min 3 8)
     ∧ Forall (λ c, c_retailer c = "amazon") items)
  ∧ ∃ items,
      search_products {| query := "desk"; retailer := Some "BestBuy"; limit := 2 |}
        = Ok {| results := items |}
      ∧ search_products {| query := "desk"; retailer := Some (Py.lower "BestBuy"); limit := 2 |}
        = Ok {| results := items |}
      ∧ Z.of_nat (length items) = Z.max 0 (Z.min 2 8)
      ∧ Forall (λ c, c_retailer c = Py.lower "BestBuy") items.
Proof.
  split.
  - destruct (search_normalizes_retailer "desk" 3) as [H _].
    apply H. right. reflexivity.
  - destruct (search_normalizes_retailer "desk" 2) as [_ H].
    apply H. apply (bool_decide_unpack _). vm_compute. exact I.
Defined.

(** The candidates of a capitalised retailer, written out. *)
Example search_capitalised :
  search_products {| query := "desk"; retailer := Some "BestBuy"; limit := 1 |}
  = Ok {| results :=
      [ {| c_retailer := "bestbuy"; c_title := "desk - Option 1";
           c_price := 1999; c_rating := 420;
           c_url := "https://bestbuy.example.com/product/1";
           c_image := "https://via.placeholder.com/300x200.png?text=Product" |} ] |}.
Proof. reflexivity. Qed.

(** ** Task workflow *)

Section Approve.

Variables (db : Store) (tid : string) (t : Task).
Hypothesis Hp : persisted db tid t.

Lemma valid_index_lookup (i : Z) :
  0 ≤ i < Z.of_nat (length (candidates t)) →
  ∃ c, candidates t !! Z.to_nat i = Some c.
Proof.
  intros Hi. apply lookup_lt_is_Some_2. lia.
Qed.

Lemma approve_in_range (i : Z) (c : Candidate) :
  0 ≤ i < Z.of_nat (length (candidates t)) →
  candidates t !! Z.to_nat i = Some c →
  approve_selection {| task_id := tid; index := i |} db
  = (Ok (Some {| id := oid_str (ObjectId_of tid); fields := set_selection c t |}),
     approved db tid (set_selection c t)).
Proof.
  intros Hi Hc. destruct Hp as [Hv Ht].
  unfold approve_selection, find_one, find_one_and_update.
  cbn [task_id index]. rewrite Hv, Ht. cbn [negb fmap option_fmap option_map].
  replace (i <? 0) with false by lia.
  replace (i >=? Z.of_nat (length (candidates t))) with false by lia.
  cbn [orb]. rewrite Hc. reflexivity.
Qed.

Lemma approve_out_of_range (i : Z) :
  i < 0 ∨ Z.of_nat (length (candidates t)) ≤ i →
  approve_selection {| task_id := tid; index := i |} db
  = (HTTPException 400 "Invalid candidate index", db).
Proof.
  intros Hi. destruct Hp as [Hv Ht].
  unfold approve_selection, find_one.
  cbn [task_id index]. rewrite Hv, Ht. cbn [negb fmap option_fmap option_map].
  destruct Hi as [Hi|Hi].
  - replace (i <? 0) with true by lia. reflexivity.
  - replace (i >=? Z.of_nat (length (candidates t))) with true by lia.
    by rewrite orb_true_r.
Qed.

End Approve.

Lemma approved_lookup db tid t' :
  db_task (approved db tid t') !! ObjectId_of tid = Some t'.
Proof. apply lookup_insert_eq. Qed.

Lemma approved_other db tid t' k :
  k ≠ ObjectId_of tid → db_task (approved db tid t') !! k = db_task db !! k.
Proof. intros H. by apply lookup_insert_ne. Qed.

(** C1. For a stored task and an index within its candidate list,
    [approve_selection] returns the updated task; the stored task and the
    returned one have [selection] equal to the candidate at the index
    and [status] equal to [succeeded]. *)
Theorem approve_sets_selection (db : Store) (tid : string) (t : Task) (i : Z) :
  persisted db tid t →
  0 ≤ i < Z.of_nat (length (candidates t)) →
  ∃ c doc db',
    candidates t !! Z.to_nat i = Some c
    ∧ approve_selection {| task_id := tid; index := i |} db = (Ok (Some doc), db')
    ∧ db_task db' !! ObjectId_of tid = Some (fields doc)
    ∧ selection (fields doc) = Some c
    ∧ status (fields doc) = succeeded
    ∧ status_name (status (fields doc)) = "succeeded".
Proof.
  intros Hp Hi. destruct (valid_index_lookup t i Hi) as [c Hc].
  exists c. eexists. eexists. split; [exact Hc|]. split.
  - by apply approve_in_range.
  - cbn [fields]. split; [apply approved_lookup | done].
Qed.

Lemma approve_sets_selection_witness :
  ∃ c doc db',
    candidates task1 !! Z.to_nat 2 = Some c
    ∧ approve_selection {| task_id := task1_id; index := 2 |} store2 = (Ok (Some doc), db')
    ∧ db_task db' !! ObjectId_of task1_id = Some (fields doc)
    ∧ selection (fields doc) = Some c
    ∧ status (fields doc) = succeeded
    ∧ status_name (status (fields doc)) = "succeeded".
Proof.
  apply (approve_sets_selection store2 task1_id task1 2).
  - split; vm_compute; reflexivity.
  - simpl. lia.
Defined.

(** C3. For a stored task and an index outside its candidate list,
    [approve_selection] fails with status 400, detail
    ["Invalid candidate index"], and the store is the one it was given. *)
Theorem approve_invalid_index (db : Store) (tid : string) (t : Task) (i : Z) :
  persisted db tid t →
  ¬ (0 ≤ i < Z.of_nat (length (candidates t))) →
  approve_selection {| task_id := tid; index := i |} db
  = (HTTPException 400 "Invalid candidate index", db).
Proof.
  intros Hp Hi. apply (approve_out_of_range db tid t Hp). lia.
Qed.

Lemma approve_invalid_index_witness :
  approve_selection {| task_id := task1_id; index := 5 |} store2
  = (HTTPException 400 "Invalid candidate index", store2).
Proof.
  apply (approve_invalid_index store2 task1_id task1 5).
  - split; vm_compute; reflexivity.
  - simpl. lia.
Defined.

Example approve_negative_index :
  approve_selection {| task_id := task1_id; index := -1 |} store2
  = (HTTPException 400 "Invalid candidate index", store2).
Proof. vm_compute. reflexivity. Qed.

(** C4. A task that is already [succeeded] and has candidates can be
    approved again: with a valid index the call succeeds, the candidate
    list read is the stored one, [selection] becomes the candidate at
    the new index and [status] stays [succeeded]. *)
Theorem reapprove_overwrites (db : Store) (tid : string) (t : Task) (i : Z) :
  persisted db tid t →
  status t = succeeded →
  candidates t ≠ [] →
  0 ≤ i < Z.of_nat (length (candidates t)) →
  ∃ c doc db',
    candidates t !! Z.to_nat i = Some c
    ∧ approve_selection {| task_id := tid; index := i |} db = (Ok (Some doc), db')
    ∧ db_task db' !! ObjectId_of tid = Some (fields doc)
    ∧ candidates (fields doc) = candidates t
    ∧ selection (fields doc) = Some c
    ∧ status (fields doc) = succeeded.
Proof.
  intros Hp _ _ Hi. destruct (valid_index_lookup t i Hi) as [c Hc].
  exists c. eexists. eexists. split; [exact Hc|]. split.
  - by apply approve_in_range.
  - cbn [fields]. split; [apply approved_lookup | done].
Qed.

Lemma reapprove_overwrites_witness :
  ∃ c doc db',
    candidates task1_approved !! Z.to_nat 0 = Some c
    ∧ approve_selection {| task_id := task1_id; index := 0 |} store3 = (Ok (Some doc), db')
    ∧ db_task db' !! ObjectId_of task1_id = Some (fields doc)
    ∧ candidates (fields doc) = candidates task1_approved
    ∧ selection (fields doc) = Some c
    ∧ status (fields doc) = succeeded.
Proof.
  apply (reapprove_overwrites store3 task1_id task1_approved 0).
  - split; vm_compute; reflexivity.
  - reflexivity.
  - discriminate.
  - simpl. lia.
Defined.

(** Two approvals in a row: the second selection replaces the first. *)
Example approve_twice :
  selection <$> (db_task store3 !! ObjectId_of task1_id)
    = Some (Some (make_item "wireless mouse" "amazon" 2))
  ∧ selection <$>
      (db_task (snd (approve_selection {| task_id := task1_id; index := 0 |} store3))
         !! ObjectId_of task1_id)
    = Some (Some (make_item "wireless mouse" "amazon" 0)).
Proof. split; vm_compute; reflexivity. Qed.

(** C8. A successful approval changes [selection] and [status] only:
    [user_id], [bot_id], [prompt], [candidates] and [logs] of the
    returned and stored task are those of the task before; the bots and
    the other tasks are untouched. *)
Theorem approve_frame (db : Store) (tid : string) (t : Task) (i : Z) :
  persisted db tid t →
  0 ≤ i < Z.of_nat (length (candidates t)) →
  ∃ doc db',
    approve_selection {| task_id := tid; index := i |} db = (Ok (Some doc), db')
    ∧ db_task db' !! ObjectId_of tid = Some (fields doc)
    ∧ user_id (fields doc) = user_id t
    ∧ bot_id (fields doc) = bot_id t
    ∧ prompt (fields doc) = prompt t
    ∧ candidates (fields doc) = candidates t
    ∧ logs (fields doc) = logs t
    ∧ db_bot db' = db_bot db
    ∧ ∀ k, k ≠ ObjectId_of tid → db_task db' !! k = db_task db !! k.
Proof.
  intros Hp Hi. destruct (valid_index_lookup t i Hi) as [c Hc].
  eexists. eexists. split; [by apply approve_in_range|].
  cbn [fields]. split; [apply approved_lookup|].
  repeat (split; [reflexivity|]).
  intros k Hk. by apply approved_other.
Qed.

Lemma approve_frame_witness :
  ∃ doc db',
    approve_selection {| task_id := task1_id; index := 4 |} store2 = (Ok (Some doc), db')
    ∧ db_task db' !! ObjectId_of task1_id = Some (fields doc)
    ∧ user_id (fields doc) = user_id task1
    ∧ bot_id (fields doc) = bot_id task1
    ∧ prompt (fields doc) = prompt task1
    ∧ candidates (fields doc) = candidates task1
    ∧ logs (fields doc) = logs task1
    ∧ db_bot db' = db_bot store2
    ∧ ∀ k, k ≠ ObjectId_of task1_id → db_task db' !! k = db_task store2 !! k.
Proof.
  apply (approve_frame store2 task1_id task1 4).
  - split; vm_compute; reflexivity.
  - simpl. lia.
Defined.

Section Create.

Variables (new_id : ObjectId) (p : CreateTask) (db : Store).

Lemma create_task_no_bot :
  ObjectId_is_valid (ct_bot_id p) = false
  ∨ db_bot db !! ObjectId_of (ct_bot_id p) = None →
  create_task new_id p db = (HTTPException 404 "Bot not found", db).
Proof.
  intros H. unfold create_task, find_one.
  destruct (ObjectId_is_valid (ct_bot_id p)); [|reflexivity].
  destruct H as [H|H]; [discriminate H|]. by rewrite H.
Qed.

(** With a stored bot, [create_task] is decided by the search. *)
Lemma create_task_with_bot (b : Bot) :
  resolves_bot db (ct_bot_id p) b →
  create_task new_id p db =
    match search_products
            {| query := ct_prompt p;
               retailer := head (Py.or_list (retailers b) ["amazon"]);
               limit := 5 |} with
    | HTTPException code detail => (HTTPException code detail, db)
    | Ok found =>
        let t :=
          {| user_id := ct_user_id p; bot_id := ct_bot_id p; prompt := ct_prompt p;
             status := awaiting_approval; candidates := results found;
             selection := None;
             logs := ["Task created";
                      "Searched " +:+ Py.str_of_nat (length (results found))
                        +:+ " candidates"] |} in
        (Ok (serialize_doc
               (find_one (<[new_id := t]> (db_task db)) (ObjectId_of (oid_str new_id)))),
         {| db_bot := db_bot db; db_task := <[new_id := t]> (db_task db) |})
    end.
Proof.
  intros [Hv Hb]. unfold create_task, find_one at 1.
  rewrite Hv, Hb. cbn [fmap option_fmap option_map].
  destruct (retailers b) as [|r0 rs]; cbn [Py.or_list head];
    destruct (search_products _); reflexivity.
Qed.

End Create.

Lemma preferred_retailer_empty b :
  retailers b = [] → preferred_retailer b = "amazon".
Proof. unfold preferred_retailer. by intros ->. Qed.

Lemma preferred_retailer_first b r rs :
  retailers b = r :: rs → r ≠ EmptyString → preferred_retailer b = Py.lower r.
Proof.
  unfold preferred_retailer, normalized. intros -> Hr.
  cbn [Py.or_list head]. by rewrite or_str_nonempty.
Qed.

(** C2, counterexample.  The bot exists, its first configured retailer
    is not a supported one, and [create_task] fails with the search's
    400 without writing a task. *)
Lemma create_task_unsupported_retailer :
  resolves_bot store_ebay bot1_id bot_ebay
  ∧ create_task (ObjectId_of task1_id) mouse_request store_ebay
    = (HTTPException 400 "Unsupported retailer", store_ebay).
Proof. repeat split; vm_compute; reflexivity. Qed.

(** C2, amended.  On an existing bot whose preferred retailer (the first
    configured retailer, ["amazon"] when the list is empty or its first
    entry is the empty string, in lower case) is supported, [create_task]
    writes and returns one task with status [awaiting_approval], exactly
    five candidates that all carry the preferred retailer, and the two
    log entries ["Task created"] and ["Searched 5 candidates"], in that
    order.  The preferred retailer is ["amazon"] for an empty list and
    the first entry itself when that entry is a supported name. *)
Theorem create_task_awaiting_approval
    (new_id : ObjectId) (p : CreateTask) (db : Store) (b : Bot) :
  canonical new_id →
  resolves_bot db (ct_bot_id p) b →
  preferred_retailer b ∈ SUPPORTED_RETAILERS →
  (∃ doc,
    create_task new_id p db
      = (Ok (Some doc),
         {| db_bot := db_bot db; db_task := <[new_id := fields doc]> (db_task db) |})
    ∧ id doc = oid_str new_id
    ∧ user_id (fields doc) = ct_user_id p
    ∧ bot_id (fields doc) = ct_bot_id p
    ∧ prompt (fields doc) = ct_prompt p
    ∧ status (fields doc) = awaiting_approval
    ∧ selection (fields doc) = None
    ∧ length (candidates (fields doc)) = 5%nat
    ∧ Forall (λ c, c_retailer c = preferred_retailer b) (candidates (fields doc))
    ∧ logs (fields doc) = ["Task created"; "Searched 5 candidates"])
  ∧ (retailers b = [] → preferred_retailer b = "amazon")
  ∧ (∀ r rs, retailers b = r :: rs → r ∈ SUPPORTED_RETAILERS →
       preferred_retailer b = r).
Proof.
  intros Hc Hb Hs. split; [|split].
  - rewrite (create_task_with_bot new_id p db b Hb).
    rewrite search_supported by exact Hs.
    fold (preferred_retailer b). cbn [results].
    unfold find_one. rewrite Hc, lookup_insert_eq.
    cbn [fmap option_fmap option_map serialize_doc].
    eexists (Build_TaskDoc _ _). cbn [fields id].
    split; [reflexivity|].
    repeat (split; [reflexivity|]). split; [apply items_retailer | reflexivity].
  - apply preferred_retailer_empty.
  - intros r rs Hr Hin. unfold preferred_retailer. rewrite Hr.
    by apply supported_normalized.
Qed.

Lemma create_task_awaiting_approval_witness :
  (∃ doc,
    create_task (ObjectId_of task1_id) mouse_request store1
      = (Ok (Some doc),
         {| db_bot := db_bot store1;
            db_task := <[ObjectId_of task1_id := fields doc]> (db_task store1) |})
    ∧ id doc = oid_str (ObjectId_of task1_id)
    ∧ user_id (fields doc) = ct_user_id mouse_request
    ∧ bot_id (fields doc) = ct_bot_id mouse_request
    ∧ prompt (fields doc) = ct_prompt mouse_request
    ∧ status (fields doc) = awaiting_approval
    ∧ selection (fields doc) = None
    ∧ length (candidates (fields doc)) = 5%nat
    ∧ Forall (λ c, c_retailer c = preferred_retailer bot1) (candidates (fields doc))
    ∧ logs (fields doc) = ["Task created"; "Searched 5 candidates"])
  ∧ (retailers bot1 = [] → preferred_retailer bot1 = "amazon")
  ∧ (∀ r rs, retailers bot1 = r :: rs → r ∈ SUPPORTED_RETAILERS →
       preferred_retailer bot1 = r).
Proof.
  apply (create_task_awaiting_approval (ObjectId_of task1_id) mouse_request store1 bot1).
  - vm_compute. reflexivity.
  - split; vm_compute; reflexivity.
  - apply (bool_decide_unpack _). vm_compute. exact I.
Defined.

(** A capitalised first retailer: the candidates carry the lower-case
    name, not the configured spelling. *)
Example create_task_capitalised_retailer :
  let b := {| b_user_id := "u1"; b_name := "b3"; b_goals := None;
              retailers := ["Walmart"]; b_model := None |} in
  let db := {| db_bot := {[ ObjectId_of bot1_id := b ]}; db_task := ∅ |} in
  match fst (create_task (ObjectId_of task1_id) mouse_request db) with
  | Ok (Some doc) => map c_retailer (candidates (fields doc))
  | _ => []
  end = ["walmart"; "walmart"; "walmart"; "walmart"; "walmart"].
Proof. vm_compute. reflexivity. Qed.

(** C7. When the bot id does not resolve to a stored bot, [create_task]
    fails with status 404, detail ["Bot not found"], and the store is the
    one it was given: no task is written. *)
Theorem create_task_bot_not_found (new_id : ObjectId) (p : CreateTask) (db : Store) :
  (∀ b, ¬ resolves_bot db (ct_bot_id p) b) →
  create_task new_id p db = (HTTPException 404 "Bot not found", db).
Proof.
  intros H. apply create_task_no_bot.
  destruct (ObjectId_is_valid (ct_bot_id p)) eqn:Hv; [right | by left].
  destruct (db_bot db !! ObjectId_of (ct_bot_id p)) as [b|] eqn:Hb; [|reflexivity].
  destruct (H b). by split.
Qed.

Lemma create_task_bot_not_found_witness :
  create_task (ObjectId_of task1_id)
    {| ct_user_id := "u1"; ct_bot_id := task1_id; ct_prompt := "kettle" |} store1
  = (HTTPException 404 "Bot not found", store1).
Proof.
  apply (create_task_bot_not_found (ObjectId_of task1_id)
           {| ct_user_id := "u1"; ct_bot_id := task1_id; ct_prompt := "kettle" |} store1).
  intros b [_ H]. vm_compute in H. discriminate H.
Defined.

(** C9, counterexample.  A bot id that is not in ObjectId format makes
    [create_task] answer 404 ["Bot not found"], not 400. *)
Lemma create_task_malformed_bot_id_404 :
  ObjectId_is_valid "b1" = false
  ∧ create_task (ObjectId_of task1_id)
      {| ct_user_id := "u1"; ct_bot_id := "b1"; ct_prompt := "kettle" |} store1
    = (HTTPException 404 "Bot not found", store1)
  ∧ ∀ detail,
      fst (create_task (ObjectId_of task1_id)
             {| ct_user_id := "u1"; ct_bot_id := "b1"; ct_prompt := "kettle" |} store1)
      ≠ HTTPException 400 detail.
Proof.
  split; [reflexivity|]. split; [reflexivity|]. intros detail. vm_compute. discriminate.
Qed.

(** C9, amended.  A malformed id is rejected before any lookup, with the
    store unchanged: [approve_selection] answers 400 ["Invalid task id"]
    to a malformed task id, while [create_task] answers 404
    ["Bot not found"] to a malformed bot id. *)
Theorem malformed_id_rejected
    (new_id : ObjectId) (p : CreateTask) (a : ApproveSelection) (db : Store) :
  (ObjectId_is_valid (task_id a) = false →
     approve_selection a db = (HTTPException 400 "Invalid task id", db))
  ∧ (ObjectId_is_valid (ct_bot_id p) = false →
     create_task new_id p db = (HTTPException 404 "Bot not found", db)).
Proof.
  split; intros H.
  - unfold approve_selection. by rewrite H.
  - apply create_task_no_bot. by left.
Qed.

Lemma malformed_id_rejected_witness :
  approve_selection {| task_id := "nonexistent-id"; index := 0 |} store2
    = (HTTPException 400 "Invalid task id", store2)
  ∧ create_task (ObjectId_of task1_id)
      {| ct_user_id := "u1"; ct_bot_id := "b1"; ct_prompt := "kettle" |} store2
    = (HTTPException 404 "Bot not found", store2).
Proof.
  destruct (malformed_id_rejected (ObjectId_of task1_id)
              {| ct_user_id := "u1"; ct_bot_id := "b1"; ct_prompt := "kettle" |}
              {| task_id := "nonexistent-id"; index := 0 |} store2) as [Ha Hc].
  split; [apply Ha | apply Hc]; reflexivity.
Defined.

(** * Further properties of the handlers *)

(** ** Candidate generation: shape of the result list *)

Section Items.

Variables (q r : string).

Lemma str_of_nat_inj : Inj (=) (=) Py.str_of_nat.
Proof.
  intros a b H. unfold Py.str_of_nat in H.
  apply Unsigned.to_uint_inj.
  apply (f_equal NilEmpty.uint_of_string) in H.
  rewrite !NilEmpty.usu in H. congruence.
Qed.

Lemma item_url_inj i j : c_url (make_item q r i) = c_url (make_item q r j) → i = j.
Proof.
  cbn [c_url make_item]. intros H.
  do 3 apply String.app_inj in H.
  apply str_of_nat_inj in H. lia.
Qed.

Lemma item_title_inj i j : c_title (make_item q r i) = c_title (make_item q r j) → i = j.
Proof.
  cbn [c_title make_item]. intros H.
  do 2 apply String.app_inj in H.
  apply str_of_nat_inj in H. lia.
Qed.

Lemma items_NoDup_by {B} (f : Candidate → B) (ix : list nat) :
  (∀ i j, f (make_item q r i) = f (make_item q r j) → i = j) →
  NoDup ix → NoDup (map f (map (make_item q r) ix)).
Proof.
  intros Hinj Hnd. rewrite map_map.
  induction Hnd as [|i ix Hi Hnd IH]; [constructor|].
  cbn [map]. constructor; [|exact IH].
  intros Hin. apply list_elem_of_In, in_map_iff in Hin.
  destruct Hin as (j & Hj & Hjin). apply Hinj in Hj. subst j.
  apply Hi. by apply list_elem_of_In.
Qed.

Lemma items_prefix (a b : nat) :
  (a ≤ b)%nat →
  map (make_item q r) (seq 0 a) `prefix_of` map (make_item q r) (seq 0 b).
Proof.
  intros Hab. replace b with (a + (b - a))%nat by lia.
  rewrite seq_app, map_app. by apply prefix_app_r.
Qed.

Lemma items_prices_increasing (a n : nat) :
  increasing (map c_price (map (make_item q r) (seq a n))).
Proof.
  revert a. induction n as [|n IH]; intros a; [exact I|].
  specialize (IH (S a)). destruct n as [|n]; [exact I|].
  cbn [seq map] in *. split; [cbn; lia | exact IH].
Qed.

Lemma items_ratings_decreasing (a n : nat) :
  decreasing (map c_rating (map (make_item q r) (seq a n))).
Proof.
  revert a. induction n as [|n IH]; intros a; [exact I|].
  specialize (IH (S a)). destruct n as [|n]; [exact I|].
  cbn [seq map] in *. split; [cbn; lia | exact IH].
Qed.

Lemma items_bounds (n : nat) :
  (n ≤ 8)%nat →
  Forall (λ c, 1999 ≤ c_price c ≤ 5674 ∧ 350 ≤ c_rating c ≤ 420)
         (map (make_item q r) (seq 0 n)).
Proof.
  intros Hn. apply Forall_forall. intros c Hc.
  apply list_elem_of_In, in_map_iff in Hc. destruct Hc as (i & <- & Hi).
  apply in_seq in Hi. cbn [c_price c_rating make_item]. lia.
Qed.

End Items.

(** The result list of a successful search, in closed form. *)
Lemma search_ok_inv (p : SearchQuery) (found : SearchResponse) :
  search_products p = Ok found →
  normalized (retailer p) ∈ SUPPORTED_RETAILERS
  ∧ results found
    = map (make_item (query p) (normalized (retailer p)))
          (seq 0 (Z.to_nat (Z.min (limit p) 8))).
Proof.
  unfold search_products. fold (normalized (retailer p)).
  case_bool_decide as Hr; [discriminate|].
  intros [= <-]. split; [|reflexivity].
  destruct (decide (normalized (retailer p) ∈ SUPPORTED_RETAILERS)); tauto.
Qed.

(** X1. Raising the limit only appends candidates: for limits
    [l1 <= l2] the result for [l1] is a prefix of the result for [l2],
    whatever the query and (accepted) retailer. *)
Theorem search_limit_prefix (q : string) (ro : option string) (l1 l2 : Z) :
  l1 ≤ l2 →
  normalized ro ∈ SUPPORTED_RETAILERS →
  ∃ a b,
    search_products {| query := q; retailer := ro; limit := l1 |} = Ok {| results := a |}
    ∧ search_products {| query := q; retailer := ro; limit := l2 |} = Ok {| results := b |}
    ∧ a `prefix_of` b.
Proof.
  intros Hl Hr. eexists. eexists.
  split; [by apply search_supported|]. split; [by apply search_supported|].
  apply items_prefix. lia.
Qed.

Lemma search_limit_prefix_witness :
  ∃ a b,
    search_products {| query := "pen"; retailer := None; limit := 2 |} = Ok {| results := a |}
    ∧ search_products {| query := "pen"; retailer := None; limit := 6 |} = Ok {| results := b |}
    ∧ a `prefix_of` b.
Proof.
  apply (search_limit_prefix "pen" None 2 6).
  - lia.
  - apply (bool_decide_unpack _). vm_compute. exact I.
Defined.

(** X2. Within one successful search no two candidates share a url, and
    no two share a title: a candidate is identified by either. *)
Theorem search_urls_distinct (p : SearchQuery) (found : SearchResponse) :
  search_products p = Ok found →
  NoDup (map c_url (results found)) ∧ NoDup (map c_title (results found)).
Proof.
  intros H. apply search_ok_inv in H as [_ ->].
  split; apply items_NoDup_by;
    first [apply item_url_inj | apply item_title_inj | apply NoDup_seq].
Qed.

Lemma search_urls_distinct_witness :
  let found := {| results := map (make_item "pen" "target") (seq 0 8) |} in
  NoDup (map c_url (results found)) ∧ NoDup (map c_title (results found)).
Proof.
  apply (search_urls_distinct {| query := "pen"; retailer := Some "Target"; limit := 20 |}).
  vm_compute. reflexivity.
Defined.

(** X3. In every successful search prices lie between 19.99 and 56.74
    and ratings between 3.50 and 4.20 (so ratings are within [0, 5] and
    prices are positive); along the list prices strictly increase and
    ratings strictly decrease. *)
Theorem search_prices_and_ratings (p : SearchQuery) (found : SearchResponse) :
  search_products p = Ok found →
  Forall (λ c, 1999 ≤ c_price c ≤ 5674 ∧ 350 ≤ c_rating c ≤ 420) (results found)
  ∧ increasing (map c_price (results found))
  ∧ decreasing (map c_rating (results found)).
Proof.
  intros H. apply search_ok_inv in H as [_ ->].
  split; [apply items_bounds; lia|].
  split; [apply items_prices_increasing | apply items_ratings_decreasing].
Qed.

Lemma search_prices_and_ratings_witness :
  let found := {| results := map (make_item "pen" "shopify") (seq 0 3) |} in
  Forall (λ c, 1999 ≤ c_price c ≤ 5674 ∧ 350 ≤ c_rating c ≤ 420) (results found)
  ∧ increasing (map c_price (results found))
  ∧ decreasing (map c_rating (results found)).
Proof.
  apply (search_prices_and_ratings {| query := "pen"; retailer := Some "shopify"; limit := 3 |}).
  vm_compute. reflexivity.
Defined.

(** ** Approval: every outcome *)

Lemma set_selection_twice c c' t :
  set_selection c' (set_selection c t) = set_selection c' t.
Proof. reflexivity. Qed.

Lemma approved_twice db tid t1 t2 :
  approved (approved db tid t1) tid t2 = approved db tid t2.
Proof. unfold approved. cbn [db_bot db_task]. by rewrite insert_insert_eq. Qed.

(** The four ways [approve_selection] can end. *)
Lemma approve_cases (a : ApproveSelection) (db : Store) :
  approve_selection a db = (HTTPException 400 "Invalid task id", db)
  ∨ approve_selection a db = (HTTPException 404 "Task not found", db)
  ∨ approve_selection a db = (HTTPException 400 "Invalid candidate index", db)
  ∨ ∃ t c,
      persisted db (task_id a) t
      ∧ candidates t !! Z.to_nat (index a) = Some c
      ∧ approve_selection a db
        = (Ok (Some {| id := oid_str (ObjectId_of (task_id a));
                       fields := set_selection c t |}),
           approved db (task_id a) (set_selection c t)).
Proof.
  destruct a as [tid i]. cbn [task_id index].
  destruct (ObjectId_is_valid tid) eqn:Hv.
  2:{ left. unfold approve_selection. cbn [task_id]. by rewrite Hv. }
  destruct (db_task db !! ObjectId_of tid) as [t|] eqn:Ht.
  2:{ right; left. unfold approve_selection, find_one. cbn [task_id].
      by rewrite Hv, Ht. }
  assert (Hp : persisted db tid t) by done.
  destruct (decide (0 ≤ i < Z.of_nat (length (candidates t)))) as [Hi|Hi].
  - right; right; right.
    destruct (valid_index_lookup t i Hi) as [c Hc].
    exists t, c. split; [done|]. split; [done|]. by apply approve_in_range.
  - right; right; left. apply (approve_out_of_range db tid t Hp). lia.
Qed.

(** X4. A well-formed task id that is not in the task collection is
    answered 404 ["Task not found"], whatever the index, and nothing is
    written. *)
Theorem approve_task_not_found (tid : string) (i : Z) (db : Store) :
  ObjectId_is_valid tid = true →
  db_task db !! ObjectId_of tid = None →
  approve_selection {| task_id := tid; index := i |} db
  = (HTTPException 404 "Task not found", db).
Proof.
  intros Hv Ht. unfold approve_selection, find_one. cbn [task_id].
  by rewrite Hv, Ht.
Qed.

Lemma approve_task_not_found_witness :
  approve_selection {| task_id := bot1_id; index := 0 |} store2
  = (HTTPException 404 "Task not found", store2).
Proof.
  apply (approve_task_not_found bot1_id 0 store2); vm_compute; reflexivity.
Defined.

(** X5. The last approval wins: after an approval with index [i], an
    approval with index [j] gives the response and the store that it
    would have given without the first one.  With [i = j] the second
    call changes nothing. *)
Theorem approve_last_wins (db : Store) (tid : string) (t : Task) (i j : Z) :
  persisted db tid t →
  0 ≤ i < Z.of_nat (length (candidates t)) →
  0 ≤ j < Z.of_nat (length (candidates t)) →
  approve_selection {| task_id := tid; index := j |}
    (snd (approve_selection {| task_id := tid; index := i |} db))
  = approve_selection {| task_id := tid; index := j |} db
  ∧ (i = j →
     snd (approve_selection {| task_id := tid; index := j |}
            (snd (approve_selection {| task_id := tid; index := i |} db)))
     = snd (approve_selection {| task_id := tid; index := i |} db)).
Proof.
  intros Hp Hi Hj.
  destruct (valid_index_lookup t i Hi) as [ci Hci].
  destruct (valid_index_lookup t j Hj) as [cj Hcj].
  rewrite (approve_in_range db tid t Hp i ci Hi Hci). cbn [snd].
  assert (Hp' : persisted (approved db tid (set_selection ci t)) tid (set_selection ci t)).
  { split; [apply Hp | apply approved_lookup]. }
  rewrite (approve_in_range _ tid _ Hp' j cj Hj Hcj).
  rewrite (approve_in_range db tid t Hp j cj Hj Hcj).
  rewrite set_selection_twice, approved_twice. split; [reflexivity|].
  intros ->. cbn [snd]. congruence.
Qed.

Lemma approve_last_wins_witness :
  approve_selection {| task_id := task1_id; index := 4 |}
    (snd (approve_selection {| task_id := task1_id; index := 1 |} store2))
  = approve_selection {| task_id := task1_id; index := 4 |} store2
  ∧ (1 = 4 →
     snd (approve_selection {| task_id := task1_id; index := 4 |}
            (snd (approve_selection {| task_id := task1_id; index := 1 |} store2)))
     = snd (approve_selection {| task_id := task1_id; index := 1 |} store2)).
Proof.
  apply (approve_last_wins store2 task1_id task1 1 4).
  - split; vm_compute; reflexivity.
  - simpl. lia.
  - simpl. lia.
Defined.

(** X6. Whatever the request, [approve_selection] neither adds nor
    removes a task and leaves the bots alone; every stored task keeps
    its owner, bot, prompt, candidates and logs, and is either unchanged
    or [succeeded] afterwards (a [succeeded] task stays [succeeded]). *)
Theorem approve_preserves (a : ApproveSelection) (db : Store) :
  db_bot (snd (approve_selection a db)) = db_bot db
  ∧ dom (db_task (snd (approve_selection a db))) = dom (db_task db)
  ∧ ∀ k t, db_task db !! k = Some t →
      ∃ t', db_task (snd (approve_selection a db)) !! k = Some t'
            ∧ user_id t' = user_id t ∧ bot_id t' = bot_id t
            ∧ prompt t' = prompt t ∧ candidates t' = candidates t
            ∧ logs t' = logs t
            ∧ (t' = t ∨ status t' = succeeded)
            ∧ (status t = succeeded → status t' = succeeded).
Proof.
  destruct (approve_cases a db) as [H|[H|[H|(t0 & c & [Hv Ht0] & Hc & H)]]];
    rewrite H; cbn [snd].
  1-3: (split; [reflexivity|]; split; [reflexivity|];
        intros k t Hk; exists t; repeat split; auto).
  unfold approved; cbn [db_bot db_task].
  split; [reflexivity|]. split.
  - apply dom_insert_lookup_L. by rewrite Ht0.
  - intros k t Hk. destruct (decide (k = ObjectId_of (task_id a))) as [->|Hne].
    + rewrite lookup_insert_eq. assert (t = t0) as -> by congruence.
      eexists. split; [reflexivity|]. repeat split; auto.
    + rewrite lookup_insert_ne by done. exists t. repeat split; auto.
Qed.

Lemma approve_preserves_witness :
  ∃ t', db_task (snd (approve_selection {| task_id := task1_id; index := 0 |} store3))
          !! ObjectId_of task1_id = Some t'
        ∧ user_id t' = user_id task1_approved ∧ bot_id t' = bot_id task1_approved
        ∧ prompt t' = prompt task1_approved ∧ candidates t' = candidates task1_approved
        ∧ logs t' = logs task1_approved
        ∧ (t' = task1_approved ∨ status t' = succeeded)
        ∧ (status task1_approved = succeeded → status t' = succeeded).
Proof.
  apply (approve_preserves {| task_id := task1_id; index := 0 |} store3).
  vm_compute. reflexivity.
Defined.

(** X7. [approve_selection] answers with the updated document or with
    status 400 or 404 only: the read [candidates[index]] is always within
    bounds, and the document updated is the one just found. *)
Theorem approve_statuses (a : ApproveSelection) (db : Store) :
  match fst (approve_selection a db) with
  | Ok (Some doc) => id doc = oid_str (ObjectId_of (task_id a))
  | Ok None => False
  | HTTPException code _ => code = 400 ∨ code = 404
  end.
Proof.
  destruct (approve_cases a db) as [H|[H|[H|(t0 & c & _ & _ & H)]]];
    rewrite H; cbn [fst id]; auto.
Qed.

(** ** Task creation: every outcome *)

Section CreateOutcomes.

Variables (new_id : ObjectId) (p : CreateTask) (db : Store).

Lemma create_task_supported (b : Bot) :
  resolves_bot db (ct_bot_id p) b →
  preferred_retailer b ∈ SUPPORTED_RETAILERS →
  create_task new_id p db
  = (Ok (serialize_doc
           (find_one (db_task (created db new_id (new_task p (preferred_retailer b))))
                     (ObjectId_of (oid_str new_id)))),
     created db new_id (new_task p (preferred_retailer b))).
Proof.
  intros Hb Hs. rewrite (create_task_with_bot new_id p db b Hb).
  rewrite search_supported by exact Hs. reflexivity.
Qed.

Lemma create_task_rejected (b : Bot) :
  resolves_bot db (ct_bot_id p) b →
  preferred_retailer b ∉ SUPPORTED_RETAILERS →
  create_task new_id p db = (HTTPException 400 "Unsupported retailer", db).
Proof.
  intros Hb Hs. rewrite (create_task_with_bot new_id p db b Hb).
  by rewrite search_unsupported by exact Hs.
Qed.

(** The three ways [create_task] can end. *)
Lemma create_task_cases :
  create_task new_id p db = (HTTPException 404 "Bot not found", db)
  ∨ create_task new_id p db = (HTTPException 400 "Unsupported retailer", db)
  ∨ ∃ b, resolves_bot db (ct_bot_id p) b
         ∧ preferred_retailer b ∈ SUPPORTED_RETAILERS
         ∧ create_task new_id p db
           = (Ok (serialize_doc
                    (find_one (db_task (created db new_id (new_task p (preferred_retailer b))))
                              (ObjectId_of (oid_str new_id)))),
              created db new_id (new_task p (preferred_retailer b))).
Proof.
  destruct (ObjectId_is_valid (ct_bot_id p)) eqn:Hv.
  2:{ left. apply create_task_no_bot. by left. }
  destruct (db_bot db !! ObjectId_of (ct_bot_id p)) as [b|] eqn:Hb.
  2:{ left. apply create_task_no_bot. by right. }
  assert (Hr : resolves_bot db (ct_bot_id p) b) by done.
  destruct (decide (preferred_retailer b ∈ SUPPORTED_RETAILERS)) as [Hs|Hs].
  - right; right. exists b. split; [done|]. split; [done|].
    by apply create_task_supported.
  - right; left. by apply (create_task_rejected b).
Qed.

End CreateOutcomes.

Lemma new_task_inv p r : task_inv (new_task p r).
Proof. repeat split. Qed.

Lemma set_selection_inv t c :
  task_inv t → c ∈ candidates t → task_inv (set_selection c t).
Proof. intros (Hc & Hl & _) Hin. repeat split; done. Qed.

(** X8. On an existing bot whose preferred retailer is not supported,
    [create_task] answers 400 ["Unsupported retailer"] and writes
    nothing; retailers after the first one are not tried. *)
Theorem create_task_unsupported_preferred
    (new_id : ObjectId) (p : CreateTask) (db : Store) (b : Bot) :
  resolves_bot db (ct_bot_id p) b →
  preferred_retailer b ∉ SUPPORTED_RETAILERS →
  create_task new_id p db = (HTTPException 400 "Unsupported retailer", db).
Proof. apply create_task_rejected. Qed.

Lemma create_task_unsupported_preferred_witness :
  create_task (ObjectId_of task1_id) mouse_request store_ebay
  = (HTTPException 400 "Unsupported retailer", store_ebay).
Proof.
  apply (create_task_unsupported_preferred
           (ObjectId_of task1_id) mouse_request store_ebay bot_ebay).
  - split; vm_compute; reflexivity.
  - apply (bool_decide_unpack _). vm_compute. exact I.
Defined.

(** X9. Creation is all or nothing.  [create_task] never touches the
    bots nor a task stored under another id; when it answers with an
    error the store is unchanged; when it succeeds the task ids are the
    old ones and the new id, and the task written has no selection,
    status [awaiting_approval] and the request's user, bot and prompt. *)
Theorem create_task_atomic (new_id : ObjectId) (p : CreateTask) (db : Store) :
  db_bot (snd (create_task new_id p db)) = db_bot db
  ∧ (∀ k, k ≠ new_id →
       db_task (snd (create_task new_id p db)) !! k = db_task db !! k)
  ∧ match fst (create_task new_id p db) with
    | HTTPException _ _ => snd (create_task new_id p db) = db
    | Ok _ =>
        dom (db_task (snd (create_task new_id p db))) = {[new_id]} ∪ dom (db_task db)
        ∧ ∃ t, db_task (snd (create_task new_id p db)) !! new_id = Some t
               ∧ user_id t = ct_user_id p ∧ bot_id t = ct_bot_id p
               ∧ prompt t = ct_prompt p ∧ status t = awaiting_approval
               ∧ selection t = None
    end.
Proof.
  destruct (create_task_cases new_id p db) as [H|[H|(b & _ & _ & H)]];
    rewrite H; cbn [fst snd]; auto.
  unfold created; cbn [db_bot db_task]. split; [reflexivity|]. split.
  - intros k Hk. by rewrite lookup_insert_ne.
  - split; [apply dom_insert_L|]. eexists. rewrite lookup_insert_eq.
    split; [reflexivity|]. repeat split.
Qed.

Lemma create_task_atomic_witness :
  db_task (snd (create_task (ObjectId_of bot1_id) mouse_request store2))
    !! ObjectId_of task1_id
  = Some task1.
Proof.
  destruct (create_task_atomic (ObjectId_of bot1_id) mouse_request store2)
    as (_ & Hother & _).
  rewrite Hother; [vm_compute; reflexivity | vm_compute; discriminate].
Defined.

(** X10. The id returned by [create_task] is accepted by
    [approve_selection]: with an index from 0 to 4 the approval succeeds
    and selects that candidate of the created task. *)
Theorem create_then_approve
    (new_id : ObjectId) (p : CreateTask) (db db' : Store) (doc : TaskDoc) (i : Z) :
  canonical new_id →
  ObjectId_is_valid (oid_str new_id) = true →
  create_task new_id p db = (Ok (Some doc), db') →
  0 ≤ i < 5 →
  ∃ c doc2 db2,
    candidates (fields doc) !! Z.to_nat i = Some c
    ∧ approve_selection {| task_id := id doc; index := i |} db' = (Ok (Some doc2), db2)
    ∧ id doc2 = id doc
    ∧ selection (fields doc2) = Some c
    ∧ status (fields doc2) = succeeded
    ∧ db_task db2 !! new_id = Some (fields doc2).
Proof.
  intros Hc Hv Hcreate Hi. unfold canonical in Hc.
  destruct (create_task_cases new_id p db) as [H|[H|(b & _ & _ & H)]];
    rewrite H in Hcreate; try discriminate Hcreate.
  unfold find_one, created in Hcreate. cbn [db_task] in Hcreate.
  rewrite Hc, lookup_insert_eq in Hcreate.
  cbn [fmap option_fmap option_map serialize_doc] in Hcreate.
  injection Hcreate as <- <-. cbn [id fields].
  set (t := new_task p (preferred_retailer b)).
  assert (Hp : persisted (created db new_id t) (oid_str new_id) t).
  { split; [exact Hv|]. rewrite Hc. apply lookup_insert_eq. }
  assert (Hi' : 0 ≤ i < Z.of_nat (length (candidates t))) by (cbn; lia).
  destruct (valid_index_lookup t i Hi') as [c Hci].
  exists c. eexists. eexists. split; [exact Hci|]. split.
  - by apply approve_in_range.
  - cbn [id fields]. rewrite Hc. split; [reflexivity|].
    split; [reflexivity|]. split; [reflexivity|].
    unfold approved; cbn [db_task]. rewrite Hc. apply lookup_insert_eq.
Qed.

Lemma create_then_approve_witness :
  ∃ c doc2 db2,
    candidates task1 !! Z.to_nat 3 = Some c
    ∧ approve_selection {| task_id := task1_id; index := 3 |} store2 = (Ok (Some doc2), db2)
    ∧ id doc2 = task1_id
    ∧ selection (fields doc2) = Some c
    ∧ status (fields doc2) = succeeded
    ∧ db_task db2 !! ObjectId_of task1_id = Some (fields doc2).
Proof.
  apply (create_then_approve (ObjectId_of task1_id) mouse_request store1 store2
           {| id := task1_id; fields := task1 |} 3).
  - vm_compute. reflexivity.
  - vm_compute. reflexivity.
  - vm_compute. reflexivity.
  - lia.
Defined.

(** ** An invariant of every run *)

Lemma store_inv_empty : store_inv empty_store.
Proof. intros k t H. cbn in H. by rewrite lookup_empty in H. Qed.

Lemma store_inv_insert db k t :
  store_inv db → task_inv t →
  store_inv {| db_bot := db_bot db; db_task := <[k := t]> (db_task db) |}.
Proof.
  intros Hdb Ht k' t'. cbn [db_task].
  destruct (decide (k' = k)) as [->|Hne].
  - rewrite lookup_insert_eq. by intros [= <-].
  - rewrite lookup_insert_ne by done. apply Hdb.
Qed.

Lemma store_inv_step db r : store_inv db → store_inv (step db r).
Proof.
  intros Hdb. destruct r as [nid b|bid|nid p|a]; cbn [step].
  - exact Hdb.
  - unfold delete_bot. destruct (negb _); exact Hdb.
  - destruct (create_task_cases nid p db) as [H|[H|(b & _ & _ & H)]];
      rewrite H; cbn [snd]; try exact Hdb.
    apply store_inv_insert; [exact Hdb | apply new_task_inv].
  - destruct (approve_cases a db) as [H|[H|[H|(t0 & c & [Hv Ht0] & Hc & H)]]];
      rewrite H; cbn [snd]; try exact Hdb.
    apply store_inv_insert; [exact Hdb|].
    apply set_selection_inv; [by apply (Hdb _ _ Ht0)|].
    by apply list_elem_of_lookup_2 in Hc.
Qed.

Lemma store_inv_run rs db : store_inv db → store_inv (run rs db).
Proof.
  revert db. induction rs as [|r rs IH]; intros db Hdb; [exact Hdb|].
  cbn. apply IH. by apply store_inv_step.
Qed.

(** X11. In the store reached from the empty one by any sequence of
    bot creations, bot deletions, task creations and approvals, every
    task has five candidates and two log entries, and it is either
    [awaiting_approval] with no selection or [succeeded] with a selection
    that is one of its own candidates; [queued], [running] and [failed]
    never occur. *)
Theorem reachable_tasks_well_formed (rs : list Request) (k : ObjectId) (t : Task) :
  db_task (run rs empty_store) !! k = Some t →
  task_inv t ∧ (status t = awaiting_approval ∨ status t = succeeded).
Proof.
  intros H. assert (Hi : task_inv t).
  { by apply (store_inv_run rs empty_store store_inv_empty k). }
  split; [exact Hi|]. destruct Hi as (_ & _ & Hs).
  destruct (selection t); [right | left]; tauto.
Qed.

Lemma reachable_tasks_well_formed_witness :
  task_inv task1_approved
  ∧ (status task1_approved = awaiting_approval ∨ status task1_approved = succeeded).
Proof.
  apply (reachable_tasks_well_formed
           [ReqCreateBot (ObjectId_of bot1_id) bot1;
            ReqCreateTask (ObjectId_of task1_id) mouse_request;
            ReqApprove {| task_id := task1_id; index := 2 |}]
           (ObjectId_of task1_id)).
  vm_compute. reflexivity.
Defined.

(** ** Bots *)

Lemma store_eta db : {| db_bot := db_bot db; db_task := db_task db |} = db.
Proof. by destruct db. Qed.

(** X12. [delete_bot] on a well-formed id always answers [ok], whether
    or not such a bot exists: afterwards the id is not in the bot
    collection, the other bots and all tasks (also those of the deleted
    bot) are as before, and when there was no such bot the store is
    unchanged.  A malformed id is answered 400 with the store unchanged. *)
Theorem delete_bot_outcomes (bid : string) (db : Store) :
  (ObjectId_is_valid bid = false →
     delete_bot bid db = (HTTPException 400 "Invalid bot id", db))
  ∧ (ObjectId_is_valid bid = true →
     fst (delete_bot bid db) = Ok {| ok := true |}
     ∧ db_bot (snd (delete_bot bid db)) !! ObjectId_of bid = None
     ∧ (∀ k, k ≠ ObjectId_of bid →
          db_bot (snd (delete_bot bid db)) !! k = db_bot db !! k)
     ∧ db_task (snd (delete_bot bid db)) = db_task db
     ∧ (db_bot db !! ObjectId_of bid = None → snd (delete_bot bid db) = db)).
Proof.
  unfold delete_bot. split; intros Hv; rewrite Hv; cbn [negb fst snd db_bot db_task].
  - reflexivity.
  - split; [reflexivity|]. split; [apply lookup_delete_eq|].
    split; [intros k Hk; by apply lookup_delete_ne|]. split; [reflexivity|].
    intros Hn. rewrite delete_id by exact Hn. apply store_eta.
Qed.

Lemma delete_bot_outcomes_witness :
  delete_bot "b1" store2 = (HTTPException 400 "Invalid bot id", store2)
  ∧ fst (delete_bot task1_id store2) = Ok {| ok := true |}
  ∧ snd (delete_bot task1_id store2) = store2.
Proof.
  destruct (delete_bot_outcomes "b1" store2) as [H400 _].
  destruct (delete_bot_outcomes task1_id store2) as [_ Hok].
  split; [apply H400; reflexivity|].
  destruct Hok as (H1 & _ & _ & _ & H5); [vm_compute; reflexivity|].
  split; [exact H1|]. apply H5. vm_compute. reflexivity.
Defined.

(** An id of 24 characters that [bytes.fromhex] reads with whitespace in
    it is a valid id: it is looked up, not rejected. *)
Example whitespace_id :
  ObjectId_is_valid "64b7f0a1c2d3e4f5a6b7c8  " = true
  ∧ ObjectId_of "64b7f0a1c2d3e4f5a6b7c8  " = Oid "64b7f0a1c2d3e4f5a6b7c8"
  ∧ approve_selection {| task_id := "64b7f0a1c2d3e4f5a6b7c8  "; index := 0 |} store2
    = (HTTPException 404 "Task not found", store2)
  ∧ delete_bot "64b7f0a1c2d3e4f5a6b7c8  " store2 = (Ok {| ok := true |}, store2).
Proof. repeat split; vm_compute; reflexivity. Qed.

(** X13. After [delete_bot] on an id, whatever it answered,
    [create_task] for that bot id answers 404 ["Bot not found"] and
    writes nothing. *)
Theorem delete_bot_then_create_task (new_id : ObjectId) (p : CreateTask) (db : Store) :
  create_task new_id p (snd (delete_bot (ct_bot_id p) db))
  = (HTTPException 404 "Bot not found", snd (delete_bot (ct_bot_id p) db)).
Proof.
  apply create_task_no_bot. unfold delete_bot.
  destruct (ObjectId_is_valid (ct_bot_id p)); cbn [negb snd db_bot].
  - right. apply lookup_delete_eq.
  - by left.
Qed.

(** X14. [delete_bot] is idempotent: a second call with the same id
    gives the same response and leaves the store of the first call. *)
Theorem delete_bot_idempotent (bid : string) (db : Store) :
  delete_bot bid (snd (delete_bot bid db)) = delete_bot bid db.
Proof.
  unfold delete_bot. destruct (ObjectId_is_valid bid); cbn [negb snd db_bot db_task].
  - by rewrite delete_delete_eq.
  - reflexivity.
Qed.

(** X15. The id returned by [create_bot] identifies the bot just stored:
    the response carries the submitted bot, the id resolves to it, the
    other bots and all tasks are untouched, and [create_task] with that
    id does not answer 404. *)
Theorem create_bot_resolves
    (new_id task_new_id : ObjectId) (b : Bot) (p : CreateTask) (db : Store) :
  canonical new_id →
  ObjectId_is_valid (oid_str new_id) = true →
  ct_bot_id p = oid_str new_id →
  fst (create_bot new_id b db)
    = Ok (Some {| bot_doc_id := oid_str new_id; bot_fields := b |})
  ∧ resolves_bot (snd (create_bot new_id b db)) (oid_str new_id) b
  ∧ (∀ k, k ≠ new_id → db_bot (snd (create_bot new_id b db)) !! k = db_bot db !! k)
  ∧ db_task (snd (create_bot new_id b db)) = db_task db
  ∧ ∀ detail,
      fst (create_task task_new_id p (snd (create_bot new_id b db)))
      ≠ HTTPException 404 detail.
Proof.
  intros Hc Hv Hp. unfold canonical in Hc.
  unfold create_bot, create_bot_document, find_one. cbn [fst snd db_bot db_task].
  rewrite Hc, lookup_insert_eq. cbn [fmap option_fmap option_map serialize_bot_doc].
  split; [reflexivity|].
  assert (Hr : resolves_bot
                 {| db_bot := <[new_id := b]> (db_bot db); db_task := db_task db |}
                 (oid_str new_id) b).
  { split; [exact Hv|]. cbn [db_bot]. rewrite Hc. apply lookup_insert_eq. }
  split; [exact Hr|]. split; [intros k Hk; by apply lookup_insert_ne|].
  split; [reflexivity|]. intros detail.
  rewrite <- Hp in Hr.
  destruct (decide (preferred_retailer b ∈ SUPPORTED_RETAILERS)) as [Hs|Hs].
  - by rewrite (create_task_supported task_new_id p _ b Hr Hs).
  - by rewrite (create_task_rejected task_new_id p _ b Hr Hs).
Qed.

Lemma create_bot_resolves_witness :
  fst (create_bot (ObjectId_of bot1_id) bot1 empty_store)
    = Ok (Some {| bot_doc_id := oid_str (ObjectId_of bot1_id); bot_fields := bot1 |})
  ∧ resolves_bot (snd (create_bot (ObjectId_of bot1_id) bot1 empty_store))
      (oid_str (ObjectId_of bot1_id)) bot1.
Proof.
  destruct (create_bot_resolves (ObjectId_of bot1_id) (ObjectId_of task1_id)
              bot1 mouse_request empty_store) as (H1 & H2 & _);
    [vm_compute; reflexivity .. |].
  split; [exact H1 | exact H2].
Defined.

(** X16. Creating a bot under an unused id and deleting it by the
    returned id gives back the store as it was. *)
Theorem create_bot_then_delete (new_id : ObjectId) (b : Bot) (db : Store) :
  canonical new_id →
  ObjectId_is_valid (oid_str new_id) = true →
  db_bot db !! new_id = None →
  delete_bot (oid_str new_id) (snd (create_bot new_id b db))
  = (Ok {| ok := true |}, db).
Proof.
  intros Hc Hv Hn. unfold canonical in Hc.
  unfold delete_bot, create_bot, create_bot_document.
  rewrite Hv. cbn [negb snd db_bot db_task]. rewrite Hc.
  rewrite delete_insert_id by exact Hn. by rewrite store_eta.
Qed.

Lemma create_bot_then_delete_witness :
  delete_bot (oid_str (ObjectId_of task1_id))
    (snd (create_bot (ObjectId_of task1_id) bot_ebay store2))
  = (Ok {| ok := true |}, store2).
Proof.
  apply (create_bot_then_delete (ObjectId_of task1_id) bot_ebay store2);
    vm_compute; reflexivity.
Defined.

(** ** Listing tasks *)

Section Listing.

Variables (uid : string) (bid : option string) (db : Store).

Let flt : TaskFilter := {| f_user_id := uid; f_bot_id := truthy_str bid |}.

Lemma matches_true (t : Task) :
  matches flt t = true ↔
  user_id t = uid ∧ (∀ b, bid = Some b → b ≠ EmptyString → bot_id t = b).
Proof.
  unfold matches, flt; cbn [f_user_id f_bot_id].
  rewrite andb_true_iff, bool_decide_eq_true.
  destruct bid as [[|c s]|]; cbn [truthy_str].
  - split; [intros [H _]; split; [done|]; intros b [= <-]; done | intros [H _]; done].
  - rewrite bool_decide_eq_true. split; intros [H1 H2]; split; try done.
    + intros b [= <-] _. done.
    + by apply H2.
  - split; [intros [H _]; split; [done|]; intros b [=] | intros [H _]; done].
Qed.

Lemma list_tasks_elem (d : option TaskDoc) :
  d ∈ list_tasks uid bid db ↔
  ∃ k t, d = Some {| id := oid_str k; fields := t |}
         ∧ (k, t) ∈ get_documents flt 50 db.
Proof.
  unfold list_tasks. fold flt. rewrite list_elem_of_In, in_map_iff. split.
  - intros ([k t] & <- & Hin). exists k, t. split; [reflexivity|].
    by apply list_elem_of_In.
  - intros (k & t & -> & Hin). exists (k, t). split; [reflexivity|].
    by apply list_elem_of_In.
Qed.

End Listing.

Lemma filter_none {A} (P : A → Prop) `{∀ x, Decision (P x)} (l : list A) :
  (∀ x, x ∈ l → ¬ P x) → filter P l = [].
Proof.
  induction l as [|x l IH]; intros Hl; [reflexivity|].
  rewrite filter_cons. destruct (decide (P x)) as [Hx|Hx].
  - destruct (Hl x); [left | done].
  - apply IH. intros y Hy. apply Hl. by right.
Qed.

(** X17. [list_tasks] returns at most 50 documents; each is a stored
    task, with its id, whose [user_id] is the requested one and, when a
    non-empty [bot_id] was given, whose [bot_id] is the requested one. *)
Theorem list_tasks_sound (uid : string) (bid : option string) (db : Store) :
  (length (list_tasks uid bid db) ≤ 50)%nat
  ∧ ∀ d, d ∈ list_tasks uid bid db →
      ∃ k t, d = Some {| id := oid_str k; fields := t |}
             ∧ db_task db !! k = Some t
             ∧ user_id t = uid
             ∧ (∀ b, bid = Some b → b ≠ EmptyString → bot_id t = b).
Proof.
  split.
  - unfold list_tasks, get_documents. rewrite length_map, length_take. lia.
  - intros d Hd. apply list_tasks_elem in Hd as (k & t & -> & Hin).
    exists k, t. split; [reflexivity|].
    unfold get_documents in Hin. apply subseteq_take in Hin.
    apply list_elem_of_filter in Hin as [Hm Hin]. cbn [snd] in Hm.
    apply elem_of_map_to_list in Hin. split; [exact Hin|].
    by apply matches_true in Hm.
Qed.

Lemma list_tasks_sound_witness :
  ∃ k t, Some {| id := task1_id; fields := task1 |}
           = Some {| id := oid_str k; fields := t |}
         ∧ db_task store2 !! k = Some t
         ∧ user_id t = "u1"
         ∧ (∀ b, Some bot1_id = Some b → b ≠ EmptyString → bot_id t = b).
Proof.
  apply (list_tasks_sound "u1" (Some bot1_id) store2).
  vm_compute. left.
Defined.

(** X18. While the task collection holds at most 50 documents nothing
    is cut off: every stored task of the user (of the given bot, when a
    non-empty [bot_id] was given) is in the listing.  An empty [bot_id]
    filters nothing, like an absent one. *)
Theorem list_tasks_complete
    (uid : string) (bid : option string) (db : Store) (k : ObjectId) (t : Task) :
  (size (db_task db) ≤ 50)%nat →
  db_task db !! k = Some t →
  user_id t = uid →
  (∀ b, bid = Some b → b ≠ EmptyString → bot_id t = b) →
  Some {| id := oid_str k; fields := t |} ∈ list_tasks uid bid db.
Proof.
  intros Hsz Hk Hu Hb. apply list_tasks_elem. exists k, t. split; [reflexivity|].
  unfold get_documents. rewrite take_ge.
  - apply list_elem_of_filter. split.
    + cbn [snd]. by apply matches_true.
    + by apply elem_of_map_to_list.
  - etrans; [apply length_filter|]. by rewrite length_map_to_list.
Qed.

Lemma list_tasks_complete_witness :
  Some {| id := oid_str (ObjectId_of task1_id); fields := task1_approved |}
    ∈ list_tasks "u1" (Some EmptyString) store3.
Proof.
  apply (list_tasks_complete "u1" (Some EmptyString) store3
           (ObjectId_of task1_id) task1_approved).
  - vm_compute. lia.
  - vm_compute. reflexivity.
  - reflexivity.
  - intros b [= <-] Hb. by destruct Hb.
Defined.

(** X19. Create, then list: when the user had no task before, the
    listing of the user after a successful [create_task] is exactly the
    document that [create_task] returned, also when narrowed to the
    bot of the request. *)
Theorem create_then_list
    (new_id : ObjectId) (p : CreateTask) (db db' : Store) (doc : TaskDoc) :
  canonical new_id →
  (∀ k t, db_task db !! k = Some t → user_id t ≠ ct_user_id p) →
  create_task new_id p db = (Ok (Some doc), db') →
  list_tasks (ct_user_id p) None db' = [Some doc]
  ∧ list_tasks (ct_user_id p) (Some (ct_bot_id p)) db' = [Some doc].
Proof.
  intros Hc Hnone Hcreate. unfold canonical in Hc.
  destruct (create_task_cases new_id p db) as [H|[H|(b & _ & _ & H)]];
    rewrite H in Hcreate; try discriminate Hcreate.
  unfold find_one, created in Hcreate. cbn [db_task] in Hcreate.
  rewrite Hc, lookup_insert_eq in Hcreate.
  cbn [fmap option_fmap option_map serialize_doc] in Hcreate.
  injection Hcreate as <- <-.
  set (t := new_task p (preferred_retailer b)).
  assert (Hone : ∀ bo,
    matches {| f_user_id := ct_user_id p; f_bot_id := truthy_str bo |} t = true →
    list_tasks (ct_user_id p) bo
      {| db_bot := db_bot db; db_task := <[new_id := t]> (db_task db) |}
    = [Some {| id := oid_str new_id; fields := t |}]).
  { intros bo Hm. unfold list_tasks, get_documents. cbn [db_task].
    set (P := λ d : ObjectId * Task,
           matches {| f_user_id := ct_user_id p; f_bot_id := truthy_str bo |} d.2 = true).
    assert (Hf : filter P (map_to_list (<[new_id := t]> (db_task db))) = [(new_id, t)]).
    { apply Permutation_singleton_r.
      rewrite <- insert_delete_eq.
      rewrite map_to_list_insert by apply lookup_delete_eq.
      rewrite filter_cons_True by exact Hm.
      rewrite (filter_none P); [reflexivity|].
      intros [k' t'] Hin HP. apply elem_of_map_to_list in Hin.
      apply lookup_delete_Some in Hin as [_ Hin].
      apply matches_true in HP as [Hu _]. by apply (Hnone k' t' Hin). }
    rewrite Hf. reflexivity. }
  split; apply Hone; apply matches_true; split; try reflexivity.
  - intros b0 [=].
  - intros b0 [= <-] _. reflexivity.
Qed.

Lemma create_then_list_witness :
  list_tasks (ct_user_id mouse_request) None store2
    = [Some {| id := task1_id; fields := task1 |}]
  ∧ list_tasks (ct_user_id mouse_request) (Some (ct_bot_id mouse_request)) store2
    = [Some {| id := task1_id; fields := task1 |}].
Proof.
  apply (create_then_list (ObjectId_of task1_id) mouse_request store1 store2).
  - vm_compute. reflexivity.
  - intros k t H. vm_compute in H. discriminate H.
  - vm_compute. reflexivity.
Defined.

(** ** ACP *)

Lemma search_outcomes (p : SearchQuery) :
  search_products p = HTTPException 400 "Unsupported retailer"
  ∨ ∃ found, search_products p = Ok found.
Proof.
  unfold search_products. case_bool_decide; [by left | right; eauto].
Qed.

(** X20. [acp_invoke] answers 400 ["Unknown action"] exactly for the
    action names that [acp_actions] does not advertise: every advertised
    action is routed, and nothing else is. *)
Theorem acp_unknown_action (payload : AcpInvoke) :
  acp_invoke payload = HTTPException 400 "Unknown action"
  ↔ action payload ∉ map action_name acp_actions.
Proof.
  unfold acp_invoke. cbn [map acp_actions action_name].
  rewrite !not_elem_of_cons.
  destruct (String.eqb_spec (action payload) "search_products") as [->|H1].
  { split; [|tauto]. intros H.
    destruct (search_outcomes
                {| query := default EmptyString (arguments payload !! "query");
                   retailer := arguments payload !! "retailer"; limit := 5 |})
      as [Hs|[found Hs]]; rewrite Hs in H; discriminate H. }
  destruct (String.eqb_spec (action payload) "get_product") as [->|H2].
  { split; [|tauto]. destruct (truthy_str _); discriminate. }
  destruct (String.eqb_spec (action payload) "add_to_cart") as [->|H3].
  { split; [discriminate | tauto]. }
  destruct (String.eqb_spec (action payload) "start_checkout") as [->|H4].
  { split; [discriminate | tauto]. }
  split; [intros _ | reflexivity].
  repeat split; try done. apply not_elem_of_nil.
Qed.

Lemma acp_unknown_action_witness :
  acp_invoke {| action := "checkout"; arguments := ∅ |}
  = HTTPException 400 "Unknown action".
Proof.
  apply (acp_unknown_action {| action := "checkout"; arguments := ∅ |}).
  apply (bool_decide_unpack _). vm_compute. exact I.
Defined.

(** X21. The ACP route to the search, for a request whose [query] and
    [retailer] arguments are absent or strings: it searches for the
    query (the empty string when absent) with limit five.  When the
    retailer normalises to a supported name the answer is the search's
    result and holds exactly five candidates of that retailer; otherwise
    it is the search's 400 ["Unsupported retailer"]. *)
Theorem acp_search_products (payload : AcpInvoke) (oq ro : option string) :
  action payload = "search_products" →
  arguments payload !! "query" = oq →
  arguments payload !! "retailer" = ro →
  (normalized ro ∈ SUPPORTED_RETAILERS →
     ∃ items,
       acp_invoke payload = Ok (AcpSearch {| results := items |})
       ∧ search_products {| query := default EmptyString oq; retailer := ro; limit := 5 |}
         = Ok {| results := items |}
       ∧ length items = 5%nat
       ∧ Forall (λ c, c_retailer c = normalized ro) items)
  ∧ (normalized ro ∉ SUPPORTED_RETAILERS →
     acp_invoke payload = HTTPException 400 "Unsupported retailer").
Proof.
  intros Ha <- <-. unfold acp_invoke. rewrite Ha. cbn [String.eqb Ascii.eqb Bool.eqb].
  split; intros Hr.
  - rewrite search_supported by exact Hr. eexists. split; [reflexivity|].
    split; [reflexivity|]. split; [reflexivity | apply items_retailer].
  - by rewrite search_unsupported by exact Hr.
Qed.

Lemma acp_search_products_witness :
  ∃ items,
    acp_invoke {| action := "search_products"; arguments := {[ "query" := "pen" ]} |}
      = Ok (AcpSearch {| results := items |})
    ∧ search_products {| query := default EmptyString (Some "pen"); retailer := None; limit := 5 |}
      = Ok {| results := items |}
    ∧ length items = 5%nat
    ∧ Forall (λ c, c_retailer c = normalized None) items.
Proof.
  destruct (acp_search_products
              {| action := "search_products"; arguments := {[ "query" := "pen" ]} |}
              (Some "pen") None)
    as [H _]; [reflexivity | vm_compute; reflexivity | vm_compute; reflexivity |].
  apply H. apply (bool_decide_unpack _). vm_compute. exact I.
Defined.



(** ** PyObjectId *)

Lemma lower_ascii_idem c : Py.lower_ascii (Py.lower_ascii c) = Py.lower_ascii c.
Proof. destruct c as [[] [] [] [] [] [] [] []]; reflexivity. Qed.

Lemma lower_ascii_hex c : is_hex_digit (Py.lower_ascii c) = is_hex_digit c.
Proof. destruct c as [[] [] [] [] [] [] [] []]; reflexivity. Qed.

Lemma hex_not_space c : is_hex_digit c = true → is_space c = false.
Proof. destruct c as [[] [] [] [] [] [] [] []]; (reflexivity || discriminate). Qed.

Lemma lower_idem s : Py.lower (Py.lower s) = Py.lower s.
Proof. induction s as [|c s IH]; cbn; [|rewrite lower_ascii_idem, IH]; reflexivity. Qed.

Lemma lower_length s : String.length (Py.lower s) = String.length s.
Proof. induction s as [|c s IH]; cbn; [|rewrite IH]; reflexivity. Qed.

Lemma lower_all_hex s : all_hex (Py.lower s) = all_hex s.
Proof. induction s as [|c s IH]; cbn; [|rewrite lower_ascii_hex, IH]; reflexivity. Qed.

(** On hexadecimal digits alone, [fromhex] is the lower-case text. *)
Lemma fromhex_go_all_hex s :
  all_hex s = true →
  (Nat.even (String.length s) = true → fromhex_go None s = Some (Py.lower s))
  ∧ (Nat.odd (String.length s) = true →
     ∀ t, fromhex_go (Some t) s = Some (String (Py.lower_ascii t) (Py.lower s))).
Proof.
  induction s as [|c s IH]; cbn [all_hex String.length].
  - intros _. split; [reflexivity | discriminate].
  - intros [Hc Hs]%andb_true_iff. destruct (IH Hs) as [IHe IHo].
    rewrite Nat.even_succ, Nat.odd_succ. cbn [fromhex_go Py.lower].
    rewrite Hc, (hex_not_space c Hc). split.
    + intros Ho. apply IHo, Ho.
    + intros He t. by rewrite (IHe He).
Qed.

Lemma fromhex_all_hex s :
  all_hex s = true → String.length s = 24%nat → fromhex s = Some (Py.lower s).
Proof.
  intros Hs Hl. apply (fromhex_go_all_hex s Hs). by rewrite Hl.
Qed.

(** What [fromhex] returns is no longer than what it read, and shorter
    when it skipped something. *)
Lemma fromhex_go_length top s h :
  fromhex_go top s = Some h →
  (String.length h ≤ match top with Some _ => 1 | None => 0 end + String.length s)%nat
  ∧ (all_hex s = false →
     (String.length h < match top with Some _ => 1 | None => 0 end + String.length s)%nat).
Proof.
  revert top h. induction s as [|c s IH]; intros top h; cbn [fromhex_go].
  - destruct top; [discriminate|]. intros [= <-]. cbn. split; [lia | discriminate].
  - destruct top as [t|].
    + destruct (is_hex_digit c) eqn:Hc; [|discriminate].
      destruct (fromhex_go None s) as [h'|] eqn:Hgo; [|discriminate].
      intros [= <-]. destruct (IH None h' Hgo) as [Hle Hlt].
      cbn [String.length all_hex]. rewrite Hc. cbn [andb]. split; [lia|].
      intros Hs. specialize (Hlt Hs). lia.
    + destruct (is_space c) eqn:Hsp.
      * intros Hgo. destruct (IH None h Hgo) as [Hle _].
        cbn [String.length]. split; [lia | intros _; lia].
      * destruct (is_hex_digit c) eqn:Hc; [|discriminate].
        intros Hgo. destruct (IH (Some c) h Hgo) as [Hle Hlt].
        cbn [String.length all_hex]. rewrite Hc. cbn [andb]. split; [lia|].
        intros Hs. specialize (Hlt Hs). lia.
Qed.

Lemma valid_inv s :
  ObjectId_is_valid s = true →
  String.length s = 24%nat ∧ ∃ h, fromhex s = Some h ∧ ObjectId_of s = Oid h.
Proof.
  unfold ObjectId_is_valid, ObjectId_of. intros [Hl Hf]%andb_true_iff.
  apply Nat.eqb_eq in Hl. split; [exact Hl|].
  destruct (fromhex s) as [h|]; [|discriminate]. by exists h.
Qed.

Lemma valid_all_hex s :
  all_hex s = true → String.length s = 24%nat → ObjectId_is_valid s = true.
Proof.
  intros Hs Hl. unfold ObjectId_is_valid.
  by rewrite Hl, (fromhex_all_hex s Hs Hl).
Qed.

(** X23. [PyObjectId.validate] raises [ValueError] exactly on the
    strings that are not valid ObjectIds and returns an [ObjectId] it is
    given as it is.  For a valid string of 24 hexadecimal digits the
    ObjectId prints as that string in lower case, which is valid,
    canonical and validates to the same ObjectId.  For a valid string
    with whitespace in it the ObjectId prints as fewer than 24
    characters, and validating that text raises [ValueError]. *)
Theorem validate_round_trip (s : string) :
  (ObjectId_is_valid s = false →
     PyObjectId_validate (inr s) = ValueError "Invalid ObjectId")
  ∧ (ObjectId_is_valid s = true →
     ∃ o, PyObjectId_validate (inr s) = Validated o
          ∧ PyObjectId_validate (inl o) = Validated o
          ∧ (all_hex s = true →
               oid_str o = Py.lower s
               ∧ ObjectId_is_valid (oid_str o) = true
               ∧ canonical o
               ∧ PyObjectId_validate (inr (oid_str o)) = Validated o)
          ∧ (all_hex s = false →
               (String.length (oid_str o) < 24)%nat
               ∧ PyObjectId_validate (inr (oid_str o)) = ValueError "Invalid ObjectId")).
Proof.
  unfold PyObjectId_validate. split; intros Hv; rewrite Hv; cbn [negb].
  - reflexivity.
  - destruct (valid_inv s Hv) as (Hl & h & Hh & Ho).
    exists (ObjectId_of s). split; [reflexivity|]. split; [reflexivity|].
    rewrite Ho. cbn [oid_str]. split; intros Hs.
    + rewrite (fromhex_all_hex s Hs Hl) in Hh. injection Hh as <-.
      assert (Hs' : all_hex (Py.lower s) = true) by by rewrite lower_all_hex.
      assert (Hl' : String.length (Py.lower s) = 24%nat) by by rewrite lower_length.
      assert (Hc : ObjectId_of (Py.lower s) = Oid (Py.lower s)).
      { unfold ObjectId_of. rewrite (fromhex_all_hex _ Hs' Hl'). cbn.
        by rewrite lower_idem. }
      split; [reflexivity|]. split; [by apply valid_all_hex|].
      split; [exact Hc|]. by rewrite (valid_all_hex _ Hs' Hl'), Hc.
    + destruct (fromhex_go_length None s h Hh) as [_ Hlt]. specialize (Hlt Hs).
      cbn in Hlt. rewrite Hl in Hlt. split; [exact Hlt|].
      unfold ObjectId_is_valid.
      replace (String.length h =? 24)%nat with false; [reflexivity|].
      symmetry. apply Nat.eqb_neq. lia.
Qed.

Lemma validate_round_trip_witness :
  PyObjectId_validate (inr "not-an-id") = ValueError "Invalid ObjectId"
  ∧ (∃ o, PyObjectId_validate (inr "64B7F0A1C2D3E4F5A6B7C8D9") = Validated o
          ∧ oid_str o = Py.lower "64B7F0A1C2D3E4F5A6B7C8D9"
          ∧ PyObjectId_validate (inr (oid_str o)) = Validated o)
  ∧ (∃ o, PyObjectId_validate (inr "64b7f0a1c2d3e4f5a6b7c8  ") = Validated o
          ∧ (String.length (oid_str o) < 24)%nat
          ∧ PyObjectId_validate (inr (oid_str o)) = ValueError "Invalid ObjectId").
Proof.
  split; [|split].
  - apply (validate_round_trip "not-an-id"). reflexivity.
  - destruct (validate_round_trip "64B7F0A1C2D3E4F5A6B7C8D9") as [_ H].
    destruct H as (o & Ho & _ & Hhex & _); [reflexivity|].
    destruct Hhex as (H1 & _ & _ & H4); [reflexivity|].
    exists o. split; [exact Ho|]. split; [exact H1 | exact H4].
  - destruct (validate_round_trip "64b7f0a1c2d3e4f5a6b7c8  ") as [_ H].
    destruct H as (o & Ho & _ & _ & Hws); [reflexivity|].
    destruct Hws as (H1 & H2); [reflexivity|].
    exists o. split; [exact Ho|]. split; [exact H1 | exact H2].
Defined.
